(** * Asset Management Dashboard (dashboard.py): data model and panels

    A shallow embedding of the table operations performed by [main] in
    [dashboard.py]: the sidebar filters, the grouped counts of the Overview
    and Location panels, the timeline buckets, the depreciation metrics, and
    the search / column selection / export of the Data Table panel.

    Scope of the model.  A cell is a missing value ([NaN], [NaT]), a text, an
    integer or a calendar date.  float64 values and the time of day of a
    timestamp are not represented: numbers are integers and print as such
    (pandas prints the whole numbers of a numeric column that has missing
    entries with a trailing ".0").  Text is a string of 8-bit characters and
    case folding is the ASCII one.  The parsers of [pd.to_datetime] and
    [pd.to_numeric] are parameters of the blocks that call them.  Charts are
    represented by the data they are drawn from; the name of the exported
    file, which carries the time of the export, is left out. *)

From Stdlib Require Import List String Ascii ZArith Bool Arith Lia.
From Stdlib Require Import Sorting.Sorted Sorting.Permutation.
From Stdlib Require Import DecimalString.
Import ListNotations.
Open Scope string_scope.

(** ** Exceptions *)

Inductive exn : Type :=
| TypeError      (* '<' not supported between instances of ... *)
| KeyError       (* a column label that the frame does not have *)
| OutsideModel.  (* a regular expression construct that is not modelled *)

Inductive result (A : Type) : Type :=
| Ok (a : A)
| Raise (e : exn).
Arguments Ok {A} a.
Arguments Raise {A} e.

Definition bind {A B : Type} (m : result A) (k : A -> result B) : result B :=
  match m with
  | Ok a => k a
  | Raise e => Raise e
  end.

Notation "x <- m ;; k" := (bind m (fun x => k))
  (at level 61, m at next level, right associativity).
Notation "' p <- m ;; k" := (bind m (fun x => let p := x in k))
  (at level 61, p pattern, m at next level, right associativity).

(** ** Cells *)

Record date : Type := mkDate { year : nat; month : nat; day : nat }.

Inductive cell : Type :=
| NaN                (* missing value of a numeric or object column *)
| NaT                (* missing value of a datetime column *)
| Str (s : string)
| Int (z : Z)
| Date (d : date).

Definition isna (c : cell) : bool :=
  match c with
  | NaN | NaT => true
  | _ => false
  end.

Definition date_eqb (a b : date) : bool :=
  Nat.eqb (year a) (year b) && Nat.eqb (month a) (month b)
  && Nat.eqb (day a) (day b).

(** Elementwise [==]: a missing value is equal to nothing, itself included. *)
Definition cell_eqb (a b : cell) : bool :=
  match a, b with
  | Str s, Str t => String.eqb s t
  | Int x, Int y => Z.eqb x y
  | Date d, Date e => date_eqb d e
  | _, _ => false
  end.

Definition date_compare (a b : date) : comparison :=
  match Nat.compare (year a) (year b) with
  | Eq => match Nat.compare (month a) (month b) with
          | Eq => Nat.compare (day a) (day b)
          | c => c
          end
  | c => c
  end.

(** Python's [<] between two values: defined within one type only. *)
Definition cell_compare (a b : cell) : option comparison :=
  match a, b with
  | Str s, Str t => Some (String.compare s t)
  | Int x, Int y => Some (Z.compare x y)
  | Date d, Date e => Some (date_compare d e)
  | _, _ => None
  end.

Definition cell_lt (a b : cell) : Prop := cell_compare a b = Some Lt.

(** ** Data frames *)

(** A row carries its index label and one cell per column. *)
Definition row : Type := (nat * list cell)%type.

Record DataFrame : Type := mkDF {
  columns : list string;
  rows : list row
}.

Fixpoint col_index (c : string) (cols : list string) : option nat :=
  match cols with
  | [] => None
  | c' :: cols' =>
      if String.eqb c c' then Some 0
      else option_map S (col_index c cols')
  end.

(** [c in df.columns] *)
Definition has_column (c : string) (df : DataFrame) : bool :=
  match col_index c (columns df) with
  | Some _ => true
  | None => false
  end.

Definition cell_at (cols : list string) (c : string) (r : row) : cell :=
  match col_index c cols with
  | Some i => nth i (snd r) NaN
  | None => NaN
  end.

(** [df[c]] as the list of its values, in row order. *)
Definition column (c : string) (df : DataFrame) : list cell :=
  map (cell_at (columns df) c) (rows df).

(** [df[df[c] == v]] *)
Definition select_eq (c : string) (v : cell) (df : DataFrame) : DataFrame :=
  mkDF (columns df)
       (filter (fun r => cell_eqb (cell_at (columns df) c r) v) (rows df)).

(** [len(df)] *)
Definition len (df : DataFrame) : nat := List.length (rows df).

(** ** Series helpers: dropna, unique, sorted *)

Definition dropna (l : list cell) : list cell :=
  filter (fun c => negb (isna c)) l.

Definition cell_mem (c : cell) (l : list cell) : bool :=
  existsb (cell_eqb c) l.

(** [unique()]: distinct values in order of first appearance. *)
Fixpoint unique_acc (seen l : list cell) : list cell :=
  match l with
  | [] => []
  | c :: l' =>
      if cell_mem c seen then unique_acc seen l'
      else c :: unique_acc (c :: seen) l'
  end.

Definition unique (l : list cell) : list cell := unique_acc [] l.

(** [sorted(l)]: raises [TypeError] as soon as two values of different
    types are compared. *)
Fixpoint insert_sorted (x : cell) (l : list cell) : result (list cell) :=
  match l with
  | [] => Ok [x]
  | y :: l' =>
      match cell_compare x y with
      | None => Raise TypeError
      | Some Gt => l'' <- insert_sorted x l' ;; Ok (y :: l'')
      | Some _ => Ok (x :: y :: l')
      end
  end.

Fixpoint sorted (l : list cell) : result (list cell) :=
  match l with
  | [] => Ok []
  | x :: l' => s <- sorted l' ;; insert_sorted x s
  end.

(** ** Sidebar filters (main, "Sidebar filters") *)

Definition All : cell := Str "All".

(** [st.sidebar.selectbox(label, options)]: the option the user picked, the
    first one when nothing was picked. *)
Definition selectbox (options : list cell) (pick : nat) : cell :=
  nth pick options (hd NaN options).

Record selector : Type := mkSel {
  sel_options : list cell;   (* what the dropdown offers *)
  sel_value : cell           (* what the user selected *)
}.

(** One of the Company / Building / Room Name / Status blocks. *)
Definition categorical_filter (c : string) (pick : nat) (df : DataFrame)
  : result (option selector * DataFrame) :=
  if has_column c df then
    vals <- sorted (unique (dropna (column c df))) ;;
    let options := All :: vals in
    let selected := selectbox options pick in
    Ok (Some (mkSel options selected),
        if negb (cell_eqb selected All) then select_eq c selected df else df)
  else Ok (None, df).

(** The Active block. *)
Definition active_filter (pick : nat) (df : DataFrame)
  : option selector * DataFrame :=
  if has_column "Active" df then
    let options := [All; Str "Yes"; Str "No"] in
    let active_filter := selectbox options pick in
    (Some (mkSel options active_filter),
     if negb (cell_eqb active_filter All)
     then select_eq "Active" active_filter df else df)
  else (None, df).

Record picks : Type := mkPicks {
  pick_company : nat;
  pick_building : nat;
  pick_room : nat;
  pick_status : nat;
  pick_active : nat
}.

Record sidebar_state : Type := mkSidebar {
  company : option selector;
  building : option selector;
  room : option selector;
  status : option selector;
  active : option selector;
  view : DataFrame             (* df once the five blocks have run *)
}.

Definition sidebar (p : picks) (df : DataFrame) : result sidebar_state :=
  '(w1, df1) <- categorical_filter "Company" (pick_company p) df ;;
  '(w2, df2) <- categorical_filter "Building" (pick_building p) df1 ;;
  '(w3, df3) <- categorical_filter "Room Name" (pick_room p) df2 ;;
  '(w4, df4) <- categorical_filter "Status" (pick_status p) df3 ;;
  let '(w5, df5) := active_filter (pick_active p) df4 in
  Ok (mkSidebar w1 w2 w3 w4 w5 df5).

(** The value a selector filters on: none when the column is absent or the
    sentinel is selected. *)
Definition applied (w : option selector) : option cell :=
  match w with
  | Some s => if cell_eqb (sel_value s) All then None else Some (sel_value s)
  | None => None
  end.

Definition passes (cols : list string) (c : string) (w : option selector)
  (r : row) : bool :=
  match applied w with
  | Some v => cell_eqb (cell_at cols c r) v
  | None => true
  end.

(** The rows that pass all five selections of a run. *)
Definition passes_all (cols : list string) (st : sidebar_state) (r : row)
  : bool :=
  passes cols "Company" (company st) r
  && passes cols "Building" (building st) r
  && passes cols "Room Name" (room st) r
  && passes cols "Status" (status st) r
  && passes cols "Active" (active st) r.

(** What one filter block does to the table, said without the code:
    columns are kept, and when a value is applied exactly the rows holding it
    survive. *)
Definition narrows (c : string) (w : option selector) (d d' : DataFrame)
  : Prop :=
  columns d' = columns d /\
  match applied w with
  | Some v =>
      forall r, In r (rows d') <-> In r (rows d) /\ cell_at (columns d) c r = v
  | None => d' = d
  end.

(** The option list a column calls for: the sentinel, then the distinct
    non-missing values of the column in increasing order. *)
Definition options_of_column (c : string) (d : DataFrame) (opts : list cell)
  : Prop :=
  exists l,
    opts = All :: l /\
    StronglySorted cell_lt l /\
    forall v, In v l <-> isna v = false /\ In v (column c d).

(** Rows of [l1] are rows of [l2], in the same order, none taken twice. *)
Inductive subseq {A : Type} : list A -> list A -> Prop :=
| subseq_nil : subseq [] []
| subseq_skip x l1 l2 : subseq l1 l2 -> subseq l1 (x :: l2)
| subseq_keep x l1 l2 : subseq l1 l2 -> subseq (x :: l1) (x :: l2).

(** Columns whose non-missing values are all of one type. *)
Definition same_type (a b : cell) : bool :=
  match cell_compare a b with
  | Some _ => true
  | None => false
  end.

Fixpoint homogeneous (l : list cell) : bool :=
  match l with
  | [] => true
  | x :: l' => forallb (same_type x) l' && homogeneous l'
  end.

Definition comparable_column (c : string) (df : DataFrame) : bool :=
  homogeneous (dropna (column c df)).

(** ** Grouped counts (Overview and Location panels) *)

Definition count (v : cell) (l : list cell) : nat :=
  List.length (filter (cell_eqb v) l).

Section SortBy.
Context {A : Type} (leb : A -> A -> bool).

Fixpoint insert_by (x : A) (l : list A) : list A :=
  match l with
  | [] => [x]
  | y :: l' => if leb x y then x :: y :: l' else y :: insert_by x l'
  end.

(** A stable insertion sort. *)
Definition sort_by (l : list A) : list A := fold_right insert_by [] l.

End SortBy.

(** Order of group keys: the order of the values within a type; numbers
    before dates before text across types (no property below depends on the
    order across types). *)
Definition type_rank (c : cell) : nat :=
  match c with
  | Int _ => 0
  | Date _ => 1
  | Str _ => 2
  | NaN | NaT => 3
  end.

Definition key_leb (a b : cell) : bool :=
  match cell_compare a b with
  | Some Gt => false
  | Some _ => true
  | None => Nat.leb (type_rank a) (type_rank b)
  end.

(** [s.value_counts()]: one entry per distinct non-missing value, most
    frequent first; equal counts stay in order of first appearance. *)
Definition value_counts (s : list cell) : list (cell * nat) :=
  sort_by (fun a b => Nat.leb (snd b) (snd a))
          (map (fun k => (k, count k s)) (unique (dropna s))).

(** [df.groupby(c).size()]: one entry per distinct non-missing key, in key
    order. *)
Definition groupby_size (s : list cell) : list (cell * nat) :=
  map (fun k => (k, count k s)) (sort_by key_leb (unique (dropna s))).

(** [sort_values('Count', ascending=False)] *)
Definition sort_values_desc (g : list (cell * nat)) : list (cell * nat) :=
  sort_by (fun a b => Nat.leb (snd b) (snd a)) g.

Definition total (g : list (cell * nat)) : nat :=
  fold_right (fun kv acc => snd kv + acc) 0 g.

(** Key metric "Total Assets". *)
Definition total_assets (df : DataFrame) : nat := len df.

(** Overview: [building_counts = df['Building'].value_counts().head(10)] *)
Definition overview_building_counts (df : DataFrame)
  : option (list (cell * nat)) :=
  if has_column "Building" df
  then Some (firstn 10 (value_counts (column "Building" df)))
  else None.

(** Location: [building_df], the per-Building sizes sorted by count. *)
Definition location_building_df (df : DataFrame)
  : option (list (cell * nat)) :=
  if has_column "Building" df
  then Some (sort_values_desc (groupby_size (column "Building" df)))
  else None.

(** ** Column assignment *)

Fixpoint set_nth (i : nat) (v : cell) (l : list cell) : list cell :=
  match i, l with
  | 0, [] => [v]
  | 0, _ :: l' => v :: l'
  | S i', [] => NaN :: set_nth i' v []
  | S i', x :: l' => x :: set_nth i' v l'
  end.

(** [df[c] = vals]: replaces the column, or appends it when it is new. *)
Definition assign (c : string) (vals : list cell) (df : DataFrame)
  : DataFrame :=
  match col_index c (columns df) with
  | Some i =>
      mkDF (columns df)
           (map (fun rv => (fst (fst rv), set_nth i (snd rv) (snd (fst rv))))
                (combine (rows df) vals))
  | None =>
      mkDF (columns df ++ [c])%list
           (map (fun rv => (fst (fst rv),
                            set_nth (List.length (columns df)) (snd rv)
                                    (snd (fst rv))))
                (combine (rows df) vals))
  end.

(** [df.dropna(subset=[c])] *)
Definition dropna_subset (c : string) (df : DataFrame) : DataFrame :=
  mkDF (columns df)
       (filter (fun r => negb (isna (cell_at (columns df) c r))) (rows df)).

(** [df.empty] *)
Definition empty (df : DataFrame) : bool :=
  match rows df with
  | [] => true
  | _ => false
  end.

(** ** Timeline panel, Date Added block *)

(** [pd.to_datetime(s, errors='coerce')], one value at a time.  [parse] is
    the library's reading of a text or a number as a date. *)
Definition to_datetime (parse : cell -> option date) (c : cell) : cell :=
  match c with
  | Date d => Date d
  | NaN | NaT => NaT
  | Str _ | Int _ =>
      match parse c with
      | Some d => Date d
      | None => NaT
      end
  end.

(** [.dt.date] *)
Definition dt_date (c : cell) : cell :=
  match c with
  | Date d => Date d
  | _ => NaT
  end.

Definition digits (n : nat) : string :=
  NilZero.string_of_uint (Nat.to_uint n).

Definition pad2 (n : nat) : string :=
  if Nat.ltb n 10 then "0" ++ digits n else digits n.

Definition pad4 (n : nat) : string :=
  if Nat.ltb n 10 then "000" ++ digits n
  else if Nat.ltb n 100 then "00" ++ digits n
  else if Nat.ltb n 1000 then "0" ++ digits n
  else digits n.

(** [.dt.to_period('M').astype(str)] *)
Definition year_month (c : cell) : cell :=
  match c with
  | Date d => Str (pad4 (year d) ++ "-" ++ pad2 (month d))
  | _ => Str "NaT"
  end.

Record timeline : Type := mkTimeline {
  daily_additions : list (cell * nat);
  monthly_additions : list (cell * nat)
}.

(** Returns [df] as the block leaves it, and the two charts' data when they
    are drawn. *)
Definition date_added_block (parse : cell -> option date) (df : DataFrame)
  : DataFrame * option timeline :=
  if has_column "Date Added" df then
    let df := assign "Date Added"
                (map (to_datetime parse) (column "Date Added" df)) df in
    let df_with_date := dropna_subset "Date Added" df in
    if negb (empty df_with_date) then
      let df_with_date :=
        assign "Date" (map dt_date (column "Date Added" df_with_date))
               df_with_date in
      let daily := groupby_size (column "Date" df_with_date) in
      let daily := sort_by (fun a b => key_leb (fst a) (fst b)) daily in
      let df_with_date :=
        assign "Year-Month"
               (map year_month (column "Date Added" df_with_date))
               df_with_date in
      let monthly := groupby_size (column "Year-Month" df_with_date) in
      (df, Some (mkTimeline daily monthly))
    else (df, None)
  else (df, None).

(** ** Financial panel, depreciation block *)

(** [pd.to_numeric(s, errors='coerce')], one value at a time.  [parse] is
    the library's reading of a non-numeric value as a number. *)
Definition to_numeric (parse : cell -> option Z) (c : cell) : cell :=
  match c with
  | Int z => Int z
  | NaN | NaT => NaN
  | Str _ | Date _ =>
      match parse c with
      | Some z => Int z
      | None => NaN
      end
  end.

(** [s.sum()]: missing values are skipped. *)
Definition series_sum (s : list cell) : Z :=
  fold_right (fun c acc => match c with Int z => (z + acc)%Z | _ => acc end)
             0%Z s.

(** [st.metric(label, value)] calls, in order. *)
Definition metrics : Type := list (string * Z).

Definition depreciation_block (parse : cell -> option Z) (df : DataFrame)
  : DataFrame * metrics :=
  if has_column "Depreciated Value" df then
    let df := assign "Depreciated Value"
                (map (to_numeric parse) (column "Depreciated Value" df)) df in
    let dep_data := dropna_subset "Depreciated Value" df in
    if negb (empty dep_data) then
      let total_dep := series_sum (column "Depreciated Value" dep_data) in
      let shown := [("Total Depreciated Value", total_dep)] in
      if has_column "Amount Depreciated" df then
        let df := assign "Amount Depreciated"
                    (map (to_numeric parse) (column "Amount Depreciated" df))
                    df in
        let amount_dep := series_sum (column "Amount Depreciated" df) in
        (df, (shown ++ [("Total Amount Depreciated", amount_dep)])%list)
      else (df, shown)
    else (df, [])
  else (df, []).


(** ** Data Table panel *)

(** [astype(str)] of one value. *)
Definition astype_str (c : cell) : string :=
  match c with
  | NaN => "nan"
  | NaT => "NaT"
  | Str s => s
  | Int z => NilZero.string_of_int (Z.to_int z)
  | Date d => pad4 (year d) ++ "-" ++ pad2 (month d) ++ "-" ++ pad2 (day d)
  end.

(** ASCII case folding, as [re.IGNORECASE] does on ASCII letters. *)
Definition lower (a : ascii) : ascii :=
  let n := nat_of_ascii a in
  if Nat.leb 65 n && Nat.leb n 90 then ascii_of_nat (n + 32) else a.

Definition eqb_nocase (a b : ascii) : bool := Ascii.eqb (lower a) (lower b).

(** The part of the regular expression syntax that is modelled: ordinary
    characters and the dot.  [s.str.contains(pat)] treats [pat] as a regular
    expression ([regex=True] is the default). *)
Inductive re_item : Type :=
| ReChar (a : ascii)
| ReAny.

Definition is_special (a : ascii) : bool :=
  existsb (Ascii.eqb a) (list_ascii_of_string ".^$*+?{}[]\|()").

Fixpoint re_compile (pat : string) : result (list re_item) :=
  match pat with
  | EmptyString => Ok []
  | String a pat' =>
      if Ascii.eqb a "."
      then items <- re_compile pat' ;; Ok (ReAny :: items)
      else if is_special a then Raise OutsideModel
      else items <- re_compile pat' ;; Ok (ReChar a :: items)
  end.

Definition item_matches (it : re_item) (a : ascii) : bool :=
  match it with
  | ReChar b => eqb_nocase b a
  | ReAny => negb (Ascii.eqb a "010")     (* the dot rejects a newline *)
  end.

(** [pattern.match] at the start of the text. *)
Fixpoint match_here (items : list re_item) (text : string) : bool :=
  match items, text with
  | [], _ => true
  | _ :: _, EmptyString => false
  | it :: items', String a text' =>
      item_matches it a && match_here items' text'
  end.

(** [pattern.search(text) is not None] *)
Fixpoint re_search (items : list re_item) (text : string) : bool :=
  match_here items text ||
  match text with
  | EmptyString => false
  | String _ text' => re_search items text'
  end.

(** The mask of line 356: [df.astype(str).apply(lambda x:
    x.str.contains(search_term, case=False, na=False)).any(axis=1)] *)
Definition search_mask (search_term : string) (df : DataFrame)
  : result (list bool) :=
  items <- re_compile search_term ;;
  Ok (map (fun r => existsb (fun c => re_search items (astype_str c)) (snd r))
          (rows df)).

(** [df[mask]] *)
Definition select_mask (mask : list bool) (df : DataFrame) : DataFrame :=
  mkDF (columns df)
       (map fst (filter snd (combine (rows df) mask))).

(** Lines 355-359. *)
Definition search (search_term : string) (df : DataFrame)
  : result DataFrame :=
  match search_term with
  | EmptyString => Ok df
  | _ => mask <- search_mask search_term df ;; Ok (select_mask mask df)
  end.

(** [df[selected_columns]] *)
Definition select_columns (selected : list string) (df : DataFrame)
  : result DataFrame :=
  if forallb (fun c => has_column c df) selected
  then Ok (mkDF selected
                (map (fun r => (fst r,
                                map (fun c => cell_at (columns df) c r)
                                    selected))
                     (rows df)))
  else Raise KeyError.

(** A field of [to_csv]: missing values are written as the empty field. *)
Definition csv_field (c : cell) : string :=
  if isna c then "" else astype_str c.

(** [display_df.to_csv(index=False)] as records: the header, then one record
    per row.  Quoting and joining of the fields are not modelled. *)
Definition to_csv (df : DataFrame) : list (list string) :=
  columns df :: map (fun r => map csv_field (snd r)) (rows df).

Record data_table : Type := mkDataTable {
  display_df : DataFrame;
  csv : list (list string)
}.

(** Lines 353-389. *)
Definition data_table_panel (search_term : string)
  (selected_columns : list string) (df : DataFrame) : result data_table :=
  display <- search search_term df ;;
  display <- match selected_columns with
             | [] => Ok display
             | _ => select_columns selected_columns display
             end ;;
  Ok (mkDataTable display (to_csv display)).

(** *** The search as the specification words it *)

Fixpoint lower_string (s : string) : string :=
  match s with
  | EmptyString => EmptyString
  | String a s' => String (lower a) (lower_string s')
  end.

(** [t] occurs in [text] as a substring, letter case aside. *)
Definition contains_nocase (t text : string) : Prop :=
  exists pre mid post,
    text = pre ++ mid ++ post /\ lower_string mid = lower_string t.


(** ** Library parsers used to run the panels on examples *)

(** Reads an optionally signed decimal numeral. *)
Definition int_literal (c : cell) : option Z :=
  match c with
  | Str s => option_map Z.of_int (NilZero.int_of_string s)
  | _ => None
  end.

(** Reads no text as a date. *)
Definition no_date (c : cell) : option date := None.

(** ** What the sidebar is expected to do, said without the code *)

(** Row [r] agrees with the value a selector applies, if it applies one. *)
Definition holds (cols : list string) (c : string) (w : option selector)
  (r : row) : Prop :=
  match applied w with
  | Some v => cell_at cols c r = v
  | None => True
  end.


(** ** Example tables *)

Definition no_picks : picks := mkPicks 0 0 0 0 0.

Definition ex_assets : DataFrame :=
  mkDF ["Asset ID"; "Company"; "Building"; "Active"]
       [(0, [Int 1; Str "Acme"; Str "A"; Str "Yes"]);
        (1, [Int 2; Str "Acme"; Str "B"; Str "No"]);
        (2, [Int 3; Str "Bolt"; Str "A"; Str "Yes"]);
        (3, [Int 4; Str "Bolt"; Str "C"; Str "Yes"])].

(** Company "Bolt" (second option after the sentinel), Active "Yes". *)
Definition ex_picks : picks := mkPicks 2 0 0 0 1.

Definition ex_state : sidebar_state :=
  Eval vm_compute in
    match sidebar ex_picks ex_assets with
    | Ok st => st
    | Raise _ => mkSidebar None None None None None ex_assets
    end.



(** A Building cell left empty in the file. *)
Definition ex_missing_building : DataFrame :=
  mkDF ["Asset ID"; "Building"]
       [(0, [Int 1; Str "A"]); (1, [Int 2; NaN])].

(** Dates as the file has them already parsed by the loader, one of them
    missing. *)
Definition ex_dated : DataFrame :=
  mkDF ["Asset ID"; "Date Added"]
       [(0, [Int 1; Date (mkDate 2024 1 15)]);
        (1, [Int 2; Date (mkDate 2024 1 20)]);
        (2, [Int 3; NaT]);
        (3, [Int 4; Date (mkDate 2024 2 1)])].

Definition ex_timeline : timeline :=
  mkTimeline
    [(Date (mkDate 2024 1 15), 1); (Date (mkDate 2024 1 20), 1);
     (Date (mkDate 2024 2 1), 1)]
    [(Str "2024-01", 2); (Str "2024-02", 1)].

(** The number of values that [to_datetime] reads as a date. *)
Definition parsable_dates (parse : cell -> option date) (s : list cell)
  : nat :=
  List.length (dropna (map (to_datetime parse) s)).



(** ** The page, from the sidebar to the export *)

(** [if c in df.columns: df[c] = f(df[c])] *)
Definition coerce_column (c : string) (f : cell -> cell) (df : DataFrame)
  : DataFrame :=
  if has_column c df then assign c (map f (column c df)) df else df.

(** What the Last Updated block of the Timeline panel leaves in [df]. *)
Definition last_updated_block (parse : cell -> option date) (df : DataFrame)
  : DataFrame :=
  coerce_column "Last Updated" (to_datetime parse) df.

(** What the Cost block of the Financial panel leaves in [df]. *)
Definition cost_block (parse : cell -> option Z) (df : DataFrame)
  : DataFrame :=
  coerce_column "Cost" (to_numeric parse) df.

(** [df] as the Data Table panel finds it: the panels before it have
    rewritten the date and financial columns in place. *)
Definition before_data_table (parse_date : cell -> option date)
  (parse_number : cell -> option Z) (df : DataFrame) : DataFrame :=
  let df := fst (date_added_block parse_date df) in
  let df := last_updated_block parse_date df in
  let df := cost_block parse_number df in
  fst (depreciation_block parse_number df).

Record page : Type := mkPage {
  filters : sidebar_state;
  table : data_table
}.

(** A block that rewrites a column in place keeps the columns and the index
    labels. *)
Definition same_frame (d d' : DataFrame) : Prop :=
  columns d' = columns d /\ map fst (rows d') = map fst (rows d).

(** The body of [main] for a loaded, non-empty table: sidebar, panels, Data
    Table. *)
Definition dashboard (parse_date : cell -> option date)
  (parse_number : cell -> option Z) (p : picks) (search_term : string)
  (selected_columns : list string) (df : DataFrame) : result page :=
  st <- sidebar p df ;;
  let df := before_data_table parse_date parse_number (view st) in
  out <- data_table_panel search_term selected_columns df ;;
  Ok (mkPage st out).

Inductive screen : Type :=
| Instructions            (* "Please upload a CSV file to get started." *)
| LoadError               (* "The uploaded file is empty or could not be
                             loaded." *)
| Dashboard (pg : page).

(** [upload] is [None] when no file was uploaded, [Some None] when
    [load_data] failed, [Some (Some df)] when it returned [df]. *)
Definition main (parse_date : cell -> option date)
  (parse_number : cell -> option Z) (p : picks) (search_term : string)
  (selected_columns : list string) (upload : option (option DataFrame))
  : result screen :=
  match upload with
  | None => Ok Instructions
  | Some None => Ok LoadError
  | Some (Some df) =>
      if empty df then Ok LoadError
      else pg <- dashboard parse_date parse_number p search_term
                           selected_columns df ;;
           Ok (Dashboard pg)
  end.


(** The pattern made of the characters of [t] taken literally. *)
Definition literal (t : string) : list re_item :=
  map ReChar (list_ascii_of_string t).

Definition ex_serials : DataFrame :=
  mkDF ["Asset ID"; "Serial #"]
       [(0, [Int 1024; Str "abc"]); (1, [Int 2048; Str "xyz"])].

(** [ex_serials] displayed with the Serial # column alone. *)
Definition ex_serials_shown : data_table :=
  mkDataTable (mkDF ["Serial #"] [(0, [Str "abc"]); (1, [Str "xyz"])])
              [["Serial #"]; ["abc"]; ["xyz"]].







(** The scenario of the specification: three assets, two of them in
    building A. *)
Definition ex_scenario : DataFrame :=
  mkDF ["Asset ID"; "Building"; "Active"]
       [(0, [Int 1; Str "A"; Str "Yes"]);
        (1, [Int 2; Str "B"; Str "No"]);
        (2, [Int 3; Str "A"; Str "Yes"])].

(** A Cost that is not a number. *)
Definition ex_bad_cost : DataFrame :=
  mkDF ["Serial #"; "Cost"] [(0, [Str "abc"; Str "bad"])].

(** ** The loader (load_data) *)

Definition date_columns : list string :=
  ["Date Added"; "Last Updated"; "Acquisition Date";
   "Warranty Start Date"; "Warranty End Date";
   "Lease Start Date"; "Lease End Date"; "Check Out Date"].

(** [read] is what [pd.read_csv] returned, [None] when it raised; the
    exception is caught and [None] is returned. *)
Definition load_data (parse_date : cell -> option date)
  (read : option DataFrame) : option DataFrame :=
  match read with
  | Some df =>
      Some (fold_left
              (fun df col => coerce_column col (to_datetime parse_date) df)
              date_columns df)
  | None => None
  end.

(** ** Key metrics (lines 107-132) *)

(** [s.nunique()] *)
Definition nunique (s : list cell) : nat :=
  List.length (unique (dropna s)).

(** [len(df[df['Active'] == 'Yes'])] *)
Definition active_count (df : DataFrame) : nat :=
  len (select_eq "Active" (Str "Yes") df).

(** The four metrics; [None] stands for "N/A". *)
Record key_metrics : Type := mkMetrics {
  m_total_assets : nat;
  m_buildings : option nat;
  m_rooms : option nat;
  m_active_assets : option nat
}.

Definition metrics_row (df : DataFrame) : key_metrics :=
  mkMetrics
    (total_assets df)
    (if has_column "Building" df
     then Some (nunique (column "Building" df)) else None)
    (if has_column "Room Name" df
     then Some (nunique (column "Room Name" df)) else None)
    (if has_column "Active" df then Some (active_count df) else None).

(** ** Overview panel, the other two charts *)

(** [room_counts = df['Room Name'].value_counts().head(10)] *)
Definition overview_room_counts (df : DataFrame)
  : option (list (cell * nat)) :=
  if has_column "Room Name" df
  then Some (firstn 10 (value_counts (column "Room Name" df)))
  else None.

(** [active_counts = df['Active'].value_counts()] *)
Definition overview_active_counts (df : DataFrame)
  : option (list (cell * nat)) :=
  if has_column "Active" df
  then Some (value_counts (column "Active" df))
  else None.

(** ** Timeline panel, Last Updated block *)

(** Returns [df] as the block leaves it, and the chart's data when it is
    drawn. *)
Definition last_updated_chart (parse : cell -> option date) (df : DataFrame)
  : DataFrame * option (list (cell * nat)) :=
  if has_column "Last Updated" df then
    let df := assign "Last Updated"
                (map (to_datetime parse) (column "Last Updated" df)) df in
    let df_updated := dropna_subset "Last Updated" df in
    if negb (empty df_updated) then
      let df_updated :=
        assign "Update Date" (map dt_date (column "Last Updated" df_updated))
               df_updated in
      let daily_updates := groupby_size (column "Update Date" df_updated) in
      let daily_updates :=
        sort_by (fun a b => key_leb (fst a) (fst b)) daily_updates in
      (df, Some daily_updates)
    else (df, None)
  else (df, None).

(** One entry per day, the days in increasing order. *)
Definition chronological (g : list (cell * nat)) : Prop :=
  StronglySorted (fun a b => cell_lt (fst a) (fst b)) g.

(** Most frequent first. *)
Definition descending (g : list (cell * nat)) : Prop :=
  StronglySorted (fun a b => snd b <= snd a) g.

(** The columns that the panels before the Data Table rewrite. *)
Definition coerced_columns : list string :=
  ["Date Added"; "Last Updated"; "Cost"; "Depreciated Value";
   "Amount Depreciated"].

(** A table as the loader may return it, with a recognisable date and one
    that is not. *)
Definition ex_raw : DataFrame :=
  mkDF ["Asset ID"; "Building"; "Date Added"; "Last Updated"]
       [(0, [Int 1; Str "A"; Str "2024-01-15"; Str "n/a"]);
        (1, [Int 2; Str "B"; Str "soon"; Str "2024-03-02"])].

(** Reads the two dates of [ex_raw] and nothing else. *)
Definition ex_parse_date (c : cell) : option date :=
  match c with
  | Str s =>
      if String.eqb s "2024-01-15" then Some (mkDate 2024 1 15)
      else if String.eqb s "2024-03-02" then Some (mkDate 2024 3 2)
      else None
  | _ => None
  end.

Definition ex_loaded : DataFrame :=
  Eval vm_compute in
    match load_data ex_parse_date (Some ex_raw) with
    | Some df => df
    | None => ex_raw
    end.

(** Building "A" selected in the scenario. *)
Definition ex_scenario_A : sidebar_state :=
  Eval vm_compute in
    match sidebar (mkPicks 0 1 0 0 0) ex_scenario with
    | Ok st => st
    | Raise _ => mkSidebar None None None None None ex_scenario
    end.

(** Active "Yes" selected in the scenario. *)
Definition ex_scenario_yes : sidebar_state :=
  Eval vm_compute in
    match sidebar (mkPicks 0 0 0 0 1) ex_scenario with
    | Ok st => st
    | Raise _ => mkSidebar None None None None None ex_scenario
    end.

(** Nothing selected in the scenario. *)
Definition ex_scenario_all : sidebar_state :=
  Eval vm_compute in
    match sidebar no_picks ex_scenario with
    | Ok st => st
    | Raise _ => mkSidebar None None None None None ex_scenario
    end.

(** A Building column that read_csv left with numbers and text mixed. *)
Definition ex_mixed : DataFrame :=
  mkDF ["Asset ID"; "Building"]
       [(0, [Int 1; Int 7]); (1, [Int 2; Str "Annex"])].

(** [shown] are the [n] most frequent values of [s] with their counts (all
    the values when there are fewer), most frequent first. *)
Definition most_frequent (n : nat) (s : list cell) (shown : list (cell * nat))
  : Prop :=
  List.length shown <= n /\
  descending shown /\
  NoDup (map fst shown) /\
  (forall k c, In (k, c) shown ->
               isna k = false /\ c = count k s /\ 1 <= c) /\
  (forall k', isna k' = false -> In k' s -> ~ In k' (map fst shown) ->
              List.length shown = n /\
              forall k c, In (k, c) shown -> count k' s <= c).

(** Every row has one cell per column. *)
Definition well_formed (df : DataFrame) : Prop :=
  forall r, In r (rows df) -> List.length (snd r) = List.length (columns df).

(** ** Location panel, Building and Room Name together *)

Section GroupKeys.
Context {K : Type} (eqb : K -> K -> bool).

(** Distinct keys in order of first appearance. *)
Fixpoint distinct_acc (seen l : list K) : list K :=
  match l with
  | [] => []
  | k :: l' =>
      if existsb (eqb k) seen then distinct_acc seen l'
      else k :: distinct_acc (k :: seen) l'
  end.

Definition distinct (l : list K) : list K := distinct_acc [] l.

Definition occurrences (k : K) (l : list K) : nat :=
  List.length (filter (eqb k) l).

Definition sum_counts (g : list (K * nat)) : nat :=
  fold_right (fun kv acc => snd kv + acc) 0 g.

End GroupKeys.

Definition pair_eqb (a b : cell * cell) : bool :=
  cell_eqb (fst a) (fst b) && cell_eqb (snd a) (snd b).

(** A row is left out of the groups when either key is missing. *)
Definition pair_notna (a : cell * cell) : bool :=
  negb (isna (fst a)) && negb (isna (snd a)).

(** Keys are ordered by Building, then by Room Name. *)
Definition pair_leb (a b : cell * cell) : bool :=
  if cell_eqb (fst a) (fst b) then key_leb (snd a) (snd b)
  else key_leb (fst a) (fst b).

(** [df.groupby([c1, c2]).size()] on the two key columns zipped row by
    row. *)
Definition groupby_pair_size (s : list (cell * cell))
  : list ((cell * cell) * nat) :=
  map (fun k => (k, occurrences pair_eqb k s))
      (sort_by pair_leb (distinct pair_eqb (filter pair_notna s))).

Definition building_room (df : DataFrame) : list (cell * cell) :=
  combine (column "Building" df) (column "Room Name" df).

(** [sort_values(count, ascending=False)] on a table of group sizes. *)
Definition sort_counts_desc {K : Type} (g : list (K * nat))
  : list (K * nat) :=
  sort_by (fun a b => Nat.leb (snd b) (snd a)) g.

(** [room_building], the data of the Building -> Room chart. *)
Definition room_building (df : DataFrame)
  : option (list ((cell * cell) * nat)) :=
  if has_column "Room Name" df && has_column "Building" df
  then Some (firstn 20
               (sort_counts_desc (groupby_pair_size (building_room df))))
  else None.

(** [location_summary], the Location Summary Table. *)
Definition location_summary (df : DataFrame)
  : option (list ((cell * cell) * nat)) :=
  if has_column "Building" df && has_column "Room Name" df
  then Some (sort_counts_desc (groupby_pair_size (building_room df)))
  else None.

(** A room left empty in the file. *)
Definition ex_rooms : DataFrame :=
  mkDF ["Asset ID"; "Building"; "Room Name"]
       [(0, [Int 1; Str "A"; Str "101"]);
        (1, [Int 2; Str "A"; Str "101"]);
        (2, [Int 3; Str "A"; NaN]);
        (3, [Int 4; Str "B"; Str "101"])].

(** * Properties *)

(** ** Equality and order of cells *)

Lemma date_eqb_eq (a b : date) : date_eqb a b = true <-> a = b.
Proof.
  destruct a as [y m d], b as [y' m' d']; unfold date_eqb; simpl.
  rewrite !andb_true_iff, !Nat.eqb_eq. split.
  - intros [[-> ->] ->]; reflexivity.
  - intros H; injection H as -> -> ->; auto.
Qed.

Lemma cell_eqb_eq (a b : cell) : cell_eqb a b = true -> a = b.
Proof.
  destruct a, b; simpl; try discriminate; intros H.
  - apply String.eqb_eq in H; congruence.
  - apply Z.eqb_eq in H; congruence.
  - apply date_eqb_eq in H; congruence.
Qed.

Lemma cell_eqb_refl (a : cell) : isna a = false -> cell_eqb a a = true.
Proof.
  destruct a; simpl; try discriminate; intros _.
  - apply String.eqb_refl.
  - apply Z.eqb_refl.
  - apply date_eqb_eq; reflexivity.
Qed.

Lemma cell_eqb_true_iff (a b : cell) :
  cell_eqb a b = true <-> a = b /\ isna b = false.
Proof.
  split.
  - intros H. pose proof (cell_eqb_eq _ _ H) as ->. split; [reflexivity|].
    destruct b; simpl in *; congruence.
  - intros [-> H]. apply cell_eqb_refl, H.
Qed.

Lemma ascii_compare_refl (a : ascii) : Ascii.compare a a = Eq.
Proof. unfold Ascii.compare. apply N.compare_refl. Qed.

Lemma ascii_compare_lt_trans (a b c : ascii) :
  Ascii.compare a b = Lt -> Ascii.compare b c = Lt -> Ascii.compare a c = Lt.
Proof.
  unfold Ascii.compare. rewrite !N.compare_lt_iff. apply N.lt_trans.
Qed.

Lemma string_compare_lt_trans (s1 : string) : forall s2 s3,
  String.compare s1 s2 = Lt -> String.compare s2 s3 = Lt ->
  String.compare s1 s3 = Lt.
Proof.
  induction s1 as [|a s1 IH]; intros [|b s2] [|c s3]; simpl;
    try discriminate; auto.
  destruct (Ascii.compare a b) eqn:Hab; try discriminate;
    destruct (Ascii.compare b c) eqn:Hbc; try discriminate; intros H1 H2.
  - apply Ascii.compare_eq_iff in Hab, Hbc; subst.
    rewrite ascii_compare_refl. eapply IH; eassumption.
  - apply Ascii.compare_eq_iff in Hab; subst. rewrite Hbc. reflexivity.
  - apply Ascii.compare_eq_iff in Hbc; subst. rewrite Hab. reflexivity.
  - rewrite (ascii_compare_lt_trans _ _ _ Hab Hbc). reflexivity.
Qed.

Lemma date_compare_lt_iff (a b : date) :
  date_compare a b = Lt <->
  year a < year b \/
  (year a = year b /\
   (month a < month b \/ (month a = month b /\ day a < day b))).
Proof.
  unfold date_compare.
  destruct (Nat.compare_spec (year a) (year b));
    destruct (Nat.compare_spec (month a) (month b));
    destruct (Nat.compare_spec (day a) (day b));
    split; intros; try discriminate; try reflexivity; try lia.
Qed.

Lemma date_compare_gt_lt (a b : date) :
  date_compare a b = Gt -> date_compare b a = Lt.
Proof.
  intros H. apply date_compare_lt_iff. revert H. unfold date_compare.
  destruct (Nat.compare_spec (year a) (year b));
    destruct (Nat.compare_spec (month a) (month b));
    destruct (Nat.compare_spec (day a) (day b));
    intros; try discriminate; lia.
Qed.

Lemma date_compare_eq (a b : date) : date_compare a b = Eq -> a = b.
Proof.
  destruct a as [y m d], b as [y' m' d']; unfold date_compare; simpl.
  destruct (Nat.compare_spec y y');
    destruct (Nat.compare_spec m m');
    destruct (Nat.compare_spec d d'); intros; try discriminate; subst;
    reflexivity.
Qed.

Lemma cell_lt_trans (a b c : cell) : cell_lt a b -> cell_lt b c -> cell_lt a c.
Proof.
  unfold cell_lt. destruct a, b; simpl; try discriminate;
    destruct c; simpl; try discriminate; intros H1 H2;
    injection H1 as H1; injection H2 as H2; f_equal.
  - eapply string_compare_lt_trans; eassumption.
  - rewrite Z.compare_lt_iff in *. lia.
  - rewrite date_compare_lt_iff in *. lia.
Qed.

Lemma cell_compare_gt_lt (a b : cell) :
  cell_compare a b = Some Gt -> cell_lt b a.
Proof.
  unfold cell_lt. destruct a, b; simpl; try discriminate;
    intros H; injection H as H; f_equal.
  - rewrite String.compare_antisym, H. reflexivity.
  - rewrite Z.compare_antisym, H. reflexivity.
  - apply date_compare_gt_lt, H.
Qed.

Lemma cell_compare_eq (a b : cell) : cell_compare a b = Some Eq -> a = b.
Proof.
  destruct a, b; simpl; try discriminate; intros H; injection H as H; f_equal.
  - apply String.compare_eq_iff, H.
  - apply Z.compare_eq, H.
  - apply date_compare_eq, H.
Qed.

Lemma cell_lt_irrefl (a : cell) : ~ cell_lt a a.
Proof.
  unfold cell_lt. intros H.
  destruct a; simpl in H; try discriminate; injection H as H.
  - pose proof (String.compare_antisym s s) as E. rewrite H in E. discriminate.
  - rewrite Z.compare_refl in H. discriminate.
  - apply date_compare_lt_iff in H. lia.
Qed.

Lemma cell_lt_notna (a b : cell) :
  cell_lt a b -> isna a = false /\ isna b = false.
Proof. unfold cell_lt. destruct a, b; simpl; try discriminate; auto. Qed.

(** ** dropna, unique, sorted *)

Lemma dropna_In (v : cell) (l : list cell) :
  In v (dropna l) <-> isna v = false /\ In v l.
Proof.
  unfold dropna. rewrite filter_In, negb_true_iff. tauto.
Qed.

Lemma cell_mem_In (c : cell) (l : list cell) :
  isna c = false -> (cell_mem c l = true <-> In c l).
Proof.
  intros Hc. unfold cell_mem. rewrite existsb_exists. split.
  - intros [x [Hx E]]. apply cell_eqb_eq in E. subst; assumption.
  - intros H. exists c. split; [assumption | apply cell_eqb_refl, Hc].
Qed.

Lemma unique_acc_In (l : list cell) : forall seen v,
  Forall (fun c => isna c = false) l ->
  (In v (unique_acc seen l) <-> In v l /\ ~ In v seen).
Proof.
  induction l as [|c l IH]; intros seen v Hl; simpl.
  - tauto.
  - inversion Hl as [|? ? Hc Hl']; subst.
    destruct (cell_mem c seen) eqn:E.
    + apply cell_mem_In in E; [|assumption].
      rewrite IH by assumption. split.
      * tauto.
      * intros [[-> | H] Hn]; [contradiction | tauto].
    + assert (~ In c seen) as Hn.
      { intros H. apply (cell_mem_In c seen Hc) in H. congruence. }
      simpl. rewrite IH by assumption. simpl. split.
      * intros [-> | [H1 H2]]; [tauto|]. split; [tauto|].
        intros H3. apply H2. right; assumption.
      * intros [[-> | H1] H2]; [tauto|].
        destruct (cell_mem v (c :: seen)) eqn:Em.
        -- assert (isna v = false) as Hv.
           { rewrite Forall_forall in Hl'. apply Hl', H1. }
           apply (cell_mem_In v _ Hv) in Em. destruct Em as [-> | Em];
             [tauto | contradiction].
        -- right. split; [assumption|]. intros [-> | H3]; [|contradiction].
           assert (isna v = false) as Hv by assumption.
           simpl in Em. rewrite (cell_eqb_refl v Hv) in Em. discriminate.
Qed.

Lemma unique_acc_NoDup (l : list cell) : forall seen,
  Forall (fun c => isna c = false) l -> NoDup (unique_acc seen l).
Proof.
  induction l as [|c l IH]; intros seen Hl; simpl.
  - constructor.
  - inversion Hl as [|? ? Hc Hl']; subst.
    destruct (cell_mem c seen); [apply IH; assumption|].
    constructor; [|apply IH; assumption].
    rewrite unique_acc_In by assumption. simpl. tauto.
Qed.

Lemma dropna_Forall (l : list cell) :
  Forall (fun c => isna c = false) (dropna l).
Proof. apply Forall_forall. intros x H. apply dropna_In in H. tauto. Qed.

Lemma unique_dropna_In (v : cell) (l : list cell) :
  In v (unique (dropna l)) <-> isna v = false /\ In v l.
Proof.
  unfold unique. rewrite unique_acc_In by apply dropna_Forall.
  rewrite dropna_In. simpl. tauto.
Qed.

Lemma unique_dropna_NoDup (l : list cell) : NoDup (unique (dropna l)).
Proof. apply unique_acc_NoDup, dropna_Forall. Qed.

Lemma insert_sorted_spec (x : cell) (l : list cell) : forall l',
  insert_sorted x l = Ok l' ->
  StronglySorted cell_lt l -> ~ In x l ->
  StronglySorted cell_lt l' /\ Permutation (x :: l) l'.
Proof.
  induction l as [|y l IH]; simpl; intros l' H Hs Hn.
  - injection H as <-. split; [|reflexivity].
    constructor; constructor.
  - apply StronglySorted_inv in Hs as [Hs Hy].
    destruct (cell_compare x y) as [[| |]|] eqn:E; try discriminate.
    + apply cell_compare_eq in E. subst. tauto.
    + injection H as <-. split; [|reflexivity].
      constructor.
      * constructor; assumption.
      * constructor; [exact E|].
        eapply Forall_impl; [|exact Hy]. intros a Ha.
        eapply cell_lt_trans; eassumption.
    + destruct (insert_sorted x l) as [l''|] eqn:E'; simpl in H;
        try discriminate.
      injection H as <-.
      destruct (IH l'' eq_refl Hs) as [Hs' Hp]; [tauto|].
      split.
      * constructor; [assumption|].
        apply Forall_forall. intros a Ha.
        apply (Permutation_in _ (Permutation_sym Hp)) in Ha.
        destruct Ha as [<- | Ha].
        -- apply cell_compare_gt_lt, E.
        -- rewrite Forall_forall in Hy. apply Hy, Ha.
      * rewrite perm_swap. constructor. assumption.
Qed.

Lemma sorted_spec (l : list cell) : forall s,
  sorted l = Ok s -> NoDup l ->
  StronglySorted cell_lt s /\ Permutation l s.
Proof.
  induction l as [|x l IH]; simpl; intros s H Hn.
  - injection H as <-. split; constructor.
  - inversion Hn as [|? ? Hx Hn']; subst.
    destruct (sorted l) as [s'|] eqn:E; simpl in H; try discriminate.
    destruct (IH s' eq_refl Hn') as [Hs Hp].
    destruct (insert_sorted_spec x s' s H Hs) as [Hs' Hp'].
    + intros Hin. apply Hx.
      apply (Permutation_in _ (Permutation_sym Hp)), Hin.
    + split; [assumption|].
      rewrite <- Hp'. constructor. assumption.
Qed.

(** [sorted] succeeds on values of one type. *)
Lemma same_type_trans (a b c : cell) :
  same_type a b = true -> same_type a c = true -> same_type b c = true.
Proof.
  unfold same_type. destruct a, b; simpl; try discriminate;
    destruct c; simpl; try discriminate; auto.
Qed.

Lemma insert_sorted_total (x : cell) (l : list cell) :
  Forall (fun y => same_type x y = true) l ->
  exists l', insert_sorted x l = Ok l'.
Proof.
  induction l as [|y l IH]; simpl; intros H.
  - eexists; reflexivity.
  - inversion H as [|? ? Hy Hl]; subst.
    unfold same_type in Hy.
    destruct (cell_compare x y) as [[| |]|]; try discriminate;
      try (eexists; reflexivity).
    destruct (IH Hl) as [l' ->]. eexists; reflexivity.
Qed.

Lemma sorted_total (l : list cell) :
  homogeneous l = true -> exists s, sorted l = Ok s.
Proof.
  induction l as [|x l IH]; simpl; intros H.
  - eexists; reflexivity.
  - apply andb_true_iff in H as [Hx Hl].
    destruct (IH Hl) as [s Hs]. rewrite Hs. simpl.
    apply insert_sorted_total.
    assert (forall l s, sorted l = Ok s -> forall y, In y s -> In y l) as Hin.
    { clear. induction l as [|a l IHl]; simpl; intros s H y Hy.
      - injection H as <-. assumption.
      - destruct (sorted l) as [s'|] eqn:E; simpl in H; try discriminate.
        assert (forall l0 l1, insert_sorted a l0 = Ok l1 ->
                              In y l1 -> y = a \/ In y l0) as Hi.
        { clear. induction l0 as [|b l0 IH0]; simpl; intros l1 H Hy.
          - injection H as <-. simpl in Hy. intuition.
          - destruct (cell_compare a b) as [[| |]|]; try discriminate.
            + injection H as <-. simpl in *. intuition.
            + injection H as <-. simpl in *. intuition.
            + destruct (insert_sorted a l0) as [l2|] eqn:E2; simpl in H;
                try discriminate.
              injection H as <-. simpl in Hy. destruct Hy as [<- | Hy].
              * right; left; reflexivity.
              * destruct (IH0 l2 eq_refl Hy); [left | right; right];
                  assumption. }
        destruct (Hi _ _ H Hy) as [-> | Hy']; [left; reflexivity|].
        right. eapply IHl; [reflexivity | exact Hy']. }
    apply Forall_forall. intros y Hy.
    rewrite forallb_forall in Hx. apply Hx. eapply Hin; eassumption.
Qed.

(** ** The sidebar *)

Lemma selectbox_In (options : list cell) (pick : nat) :
  options <> [] -> In (selectbox options pick) options.
Proof.
  intros H. unfold selectbox.
  destruct (Nat.lt_ge_cases pick (List.length options)) as [Hlt | Hge].
  - apply nth_In, Hlt.
  - rewrite nth_overflow by exact Hge.
    destruct options; [congruence | left; reflexivity].
Qed.

Lemma filter_all {A : Type} (l : list A) : filter (fun _ => true) l = l.
Proof. induction l; simpl; congruence. Qed.

Lemma filter_filter {A : Type} (f g : A -> bool) (l : list A) :
  filter g (filter f l) = filter (fun x => f x && g x) l.
Proof.
  induction l as [|x l IH]; simpl; [reflexivity|].
  destruct (f x); simpl; [destruct (g x)|]; rewrite IH; reflexivity.
Qed.

Lemma subseq_filter {A : Type} (f : A -> bool) (l : list A) :
  subseq (filter f l) l.
Proof.
  induction l as [|x l IH]; simpl; [constructor|].
  destruct (f x); constructor; assumption.
Qed.

Lemma NoDup_map_filter {A B : Type} (g : A -> B) (f : A -> bool) (l : list A) :
  NoDup (map g l) -> NoDup (map g (filter f l)).
Proof.
  induction l as [|x l IH]; simpl; intros H; [assumption|].
  inversion H as [|? ? Hx Hl]; subst.
  destruct (f x); simpl; [|apply IH, Hl].
  constructor; [|apply IH, Hl].
  rewrite in_map_iff in *. intros [y [E Hy]]. apply Hx.
  exists y. split; [assumption|]. apply filter_In in Hy. tauto.
Qed.

(** What selecting from a list of non-missing options does to the table. *)
Lemma selection_narrows (c : string) (opts : list cell) (pick : nat)
  (d : DataFrame) :
  opts <> [] -> (forall v, In v opts -> isna v = false) ->
  let selected := selectbox opts pick in
  let w := Some (mkSel opts selected) in
  let d' := if negb (cell_eqb selected All)
            then select_eq c selected d else d in
  narrows c w d d' /\
  rows d' = filter (passes (columns d) c w) (rows d).
Proof.
  intros Hne Hna selected w d'.
  assert (isna selected = false) as Hsel
    by (apply Hna, selectbox_In, Hne).
  unfold narrows, passes, d', w, applied; simpl.
  destruct (cell_eqb selected All) eqn:E; simpl.
  - rewrite filter_all. auto.
  - split; [split; [reflexivity|] | reflexivity].
    intros r. rewrite filter_In, cell_eqb_true_iff. tauto.
Qed.

Lemma categorical_filter_spec (c : string) (pick : nat) (d : DataFrame)
  (w : option selector) (d' : DataFrame) :
  categorical_filter c pick d = Ok (w, d') ->
  narrows c w d d' /\
  rows d' = filter (passes (columns d) c w) (rows d) /\
  (forall s, w = Some s -> options_of_column c d (sel_options s)).
Proof.
  unfold categorical_filter. destruct (has_column c d).
  - destruct (sorted (unique (dropna (column c d)))) as [vals|] eqn:E;
      simpl; [|discriminate].
    intros H. injection H as <- <-.
    destruct (sorted_spec _ _ E (unique_dropna_NoDup _)) as [Hs Hp].
    assert (forall v, In v vals <-> isna v = false /\ In v (column c d)) as Hv.
    { intros v. rewrite <- unique_dropna_In. split; apply Permutation_in;
        [symmetry|]; assumption. }
    destruct (selection_narrows c (All :: vals) pick d) as [Hn Hr].
    + discriminate.
    + intros v [<- | Hin]; [reflexivity | apply Hv, Hin].
    + split; [exact Hn|]. split; [exact Hr|].
      intros s Hs'. injection Hs' as <-. simpl.
      exists vals. auto.
  - intros H. injection H as <- <-.
    unfold narrows, passes; simpl. rewrite filter_all.
    repeat split; auto. discriminate.
Qed.

Lemma active_filter_spec (pick : nat) (d : DataFrame)
  (w : option selector) (d' : DataFrame) :
  active_filter pick d = (w, d') ->
  narrows "Active" w d d' /\
  rows d' = filter (passes (columns d) "Active" w) (rows d) /\
  (forall s, w = Some s -> sel_options s = [All; Str "Yes"; Str "No"]).
Proof.
  unfold active_filter. destruct (has_column "Active" d).
  - intros H. injection H as <- <-.
    destruct (selection_narrows "Active" [All; Str "Yes"; Str "No"] pick d)
      as [Hn Hr].
    + discriminate.
    + intros v [<- | [<- | [<- | []]]]; reflexivity.
    + split; [exact Hn|]. split; [exact Hr|].
      intros s Hs. injection Hs as <-. reflexivity.
  - intros H. injection H as <- <-.
    unfold narrows, passes; simpl. rewrite filter_all.
    repeat split; auto. discriminate.
Qed.

(** The five blocks of a run, one after the other. *)
Lemma sidebar_inv (p : picks) (df : DataFrame) (st : sidebar_state) :
  sidebar p df = Ok st ->
  exists d1 d2 d3 d4,
    categorical_filter "Company" (pick_company p) df = Ok (company st, d1) /\
    categorical_filter "Building" (pick_building p) d1
      = Ok (building st, d2) /\
    categorical_filter "Room Name" (pick_room p) d2 = Ok (room st, d3) /\
    categorical_filter "Status" (pick_status p) d3 = Ok (status st, d4) /\
    active_filter (pick_active p) d4 = (active st, view st).
Proof.
  unfold sidebar.
  destruct (categorical_filter "Company" _ df) as [[w1 d1]|] eqn:E1; simpl;
    [|discriminate].
  destruct (categorical_filter "Building" _ d1) as [[w2 d2]|] eqn:E2; simpl;
    [|discriminate].
  destruct (categorical_filter "Room Name" _ d2) as [[w3 d3]|] eqn:E3; simpl;
    [|discriminate].
  destruct (categorical_filter "Status" _ d3) as [[w4 d4]|] eqn:E4; simpl;
    [|discriminate].
  destruct (active_filter _ d4) as [w5 d5] eqn:E5.
  intros H. injection H as <-. simpl.
  exists d1, d2, d3, d4. repeat split; assumption.
Qed.

Lemma sidebar_chain (p : picks) (df : DataFrame) (st : sidebar_state) :
  sidebar p df = Ok st ->
  exists d1 d2 d3 d4,
    (narrows "Company" (company st) df d1 /\
     narrows "Building" (building st) d1 d2 /\
     narrows "Room Name" (room st) d2 d3 /\
     narrows "Status" (status st) d3 d4 /\
     narrows "Active" (active st) d4 (view st)) /\
    (rows d1 = filter (passes (columns df) "Company" (company st)) (rows df) /\
     rows d2 = filter (passes (columns df) "Building" (building st))
                      (rows d1) /\
     rows d3 = filter (passes (columns df) "Room Name" (room st)) (rows d2) /\
     rows d4 = filter (passes (columns df) "Status" (status st)) (rows d3) /\
     rows (view st)
       = filter (passes (columns df) "Active" (active st)) (rows d4)) /\
    (columns d1 = columns df /\ columns d2 = columns df /\
     columns d3 = columns df /\ columns d4 = columns df /\
     columns (view st) = columns df) /\
    ((forall s, company st = Some s ->
                options_of_column "Company" df (sel_options s)) /\
     (forall s, building st = Some s ->
                options_of_column "Building" d1 (sel_options s)) /\
     (forall s, room st = Some s ->
                options_of_column "Room Name" d2 (sel_options s)) /\
     (forall s, status st = Some s ->
                options_of_column "Status" d3 (sel_options s)) /\
     (forall s, active st = Some s ->
                sel_options s = [All; Str "Yes"; Str "No"])).
Proof.
  intros H. destruct (sidebar_inv _ _ _ H) as (d1 & d2 & d3 & d4 & H1 & H2 & H3 & H4 & H5).
  apply categorical_filter_spec in H1 as (N1 & R1 & O1).
  apply categorical_filter_spec in H2 as (N2 & R2 & O2).
  apply categorical_filter_spec in H3 as (N3 & R3 & O3).
  apply categorical_filter_spec in H4 as (N4 & R4 & O4).
  apply active_filter_spec in H5 as (N5 & R5 & O5).
  pose proof (proj1 N1) as C1. pose proof (proj1 N2) as C2.
  pose proof (proj1 N3) as C3. pose proof (proj1 N4) as C4.
  pose proof (proj1 N5) as C5.
  rewrite C1 in C2. rewrite C2 in C3. rewrite C3 in C4. rewrite C4 in C5.
  rewrite C1 in R2. rewrite C2 in R3. rewrite C3 in R4. rewrite C4 in R5.
  exists d1, d2, d3, d4.
  repeat match goal with |- _ /\ _ => split end; assumption.
Qed.

Lemma sidebar_rows (p : picks) (df : DataFrame) (st : sidebar_state) :
  sidebar p df = Ok st ->
  columns (view st) = columns df /\
  rows (view st) = filter (passes_all (columns df) st) (rows df).
Proof.
  intros H.
  destruct (sidebar_chain _ _ _ H)
    as (d1 & d2 & d3 & d4 & _ & (R1 & R2 & R3 & R4 & R5) & C & _).
  split; [tauto|].
  rewrite R5, R4, R3, R2, R1, !filter_filter.
  apply filter_ext. intros r. unfold passes_all.
  rewrite !andb_assoc. reflexivity.
Qed.

Lemma narrows_In (c : string) (w : option selector) (d d' : DataFrame) :
  narrows c w d d' ->
  forall r, In r (rows d') <-> In r (rows d) /\ holds (columns d) c w r.
Proof.
  unfold narrows, holds. intros [_ H] r.
  destruct (applied w); [apply H | subst; tauto].
Qed.

Lemma column_In (c : string) (d : DataFrame) (v : cell) :
  In v (column c d) <->
  exists r, In r (rows d) /\ cell_at (columns d) c r = v.
Proof.
  unfold column. rewrite in_map_iff. split; intros [r [H1 H2]];
    exists r; tauto.
Qed.


(** The sidebar raises nothing on a table whose four categorical columns
    each hold values of one type. *)
Lemma homogeneous_pairwise (l : list cell) :
  (forall x y, In x l -> In y l -> same_type x y = true) ->
  homogeneous l = true.
Proof.
  induction l as [|x l IH]; simpl; intros H; [reflexivity|].
  apply andb_true_iff. split.
  - apply forallb_forall. intros y Hy. apply H; auto.
  - apply IH. intros a b Ha Hb. apply H; auto.
Qed.

Lemma pairwise_homogeneous (l : list cell) :
  homogeneous l = true -> Forall (fun c => isna c = false) l ->
  forall x y, In x l -> In y l -> same_type x y = true.
Proof.
  induction l as [|a l IH]; simpl; intros H Hna x y Hx Hy; [contradiction|].
  apply andb_true_iff in H as [Ha Hl]. rewrite forallb_forall in Ha.
  inversion Hna as [|? ? Hna1 Hna2]; subst.
  assert (same_type a a = true) as Haa
    by (destruct a; simpl in *; try discriminate; reflexivity).
  destruct Hx as [<- | Hx], Hy as [<- | Hy].
  - exact Haa.
  - apply Ha, Hy.
  - apply (same_type_trans a); [apply Ha, Hx | exact Haa].
  - apply IH; assumption.
Qed.

Lemma categorical_filter_total (c : string) (pick : nat) (df d : DataFrame) :
  comparable_column c df = true ->
  columns d = columns df -> incl (rows d) (rows df) ->
  exists w d', categorical_filter c pick d = Ok (w, d').
Proof.
  intros Hcmp Hc Hincl. unfold categorical_filter.
  destruct (has_column c d); [|eexists; eexists; reflexivity].
  destruct (sorted_total (unique (dropna (column c d)))) as [s ->].
  - apply homogeneous_pairwise. intros x y Hx Hy.
    apply unique_dropna_In in Hx, Hy.
    apply (pairwise_homogeneous _ Hcmp (dropna_Forall _)); apply dropna_In;
      (split; [tauto|]).
    + destruct Hx as [_ Hx]. apply column_In in Hx as (r & H1 & H2).
      apply column_In. exists r. rewrite <- Hc. auto.
    + destruct Hy as [_ Hy]. apply column_In in Hy as (r & H1 & H2).
      apply column_In. exists r. rewrite <- Hc. auto.
  - simpl. eexists; eexists; reflexivity.
Qed.

Lemma sidebar_total (p : picks) (df : DataFrame) :
  comparable_column "Company" df = true ->
  comparable_column "Building" df = true ->
  comparable_column "Room Name" df = true ->
  comparable_column "Status" df = true ->
  exists st, sidebar p df = Ok st.
Proof.
  intros H1 H2 H3 H4. unfold sidebar.
  destruct (categorical_filter_total "Company" (pick_company p) df df H1
              eq_refl (incl_refl _)) as (w1 & d1 & E1).
  rewrite E1. simpl.
  apply categorical_filter_spec in E1 as ([C1 _] & R1 & _).
  destruct (categorical_filter_total "Building" (pick_building p) df d1 H2 C1)
    as (w2 & d2 & E2).
  { rewrite R1. apply incl_filter. }
  rewrite E2. simpl.
  apply categorical_filter_spec in E2 as ([C2 _] & R2 & _).
  rewrite C1 in C2.
  assert (incl (rows d2) (rows df)) as I2.
  { rewrite R2, R1. eapply incl_tran; apply incl_filter. }
  destruct (categorical_filter_total "Room Name" (pick_room p) df d2 H3 C2 I2)
    as (w3 & d3 & E3).
  rewrite E3. simpl.
  apply categorical_filter_spec in E3 as ([C3 _] & R3 & _).
  rewrite C2 in C3.
  assert (incl (rows d3) (rows df)) as I3.
  { rewrite R3. eapply incl_tran; [apply incl_filter | exact I2]. }
  destruct (categorical_filter_total "Status" (pick_status p) df d3 H4 C3 I3)
    as (w4 & d4 & E4).
  rewrite E4. simpl.
  destruct (active_filter (pick_active p) d4). eexists; reflexivity.
Qed.



(** C7.  The view produced by the sidebar has the columns of the loaded
    table, and its rows are rows of the loaded table, in the same order and
    none taken twice; in particular the index labels stay distinct. *)
Theorem filtered_view_is_row_subset (p : picks) (df : DataFrame)
  (st : sidebar_state) :
  sidebar p df = Ok st ->
  columns (view st) = columns df /\
  subseq (rows (view st)) (rows df) /\
  (NoDup (map fst (rows df)) -> NoDup (map fst (rows (view st)))).
Proof.
  intros H. destruct (sidebar_rows _ _ _ H) as [Hc Hr].
  split; [assumption|]. rewrite Hr. split.
  - apply subseq_filter.
  - apply NoDup_map_filter.
Qed.

Lemma filtered_view_witness :
  sidebar ex_picks ex_assets = Ok ex_state /\
  columns (view ex_state) = columns ex_assets /\
  subseq (rows (view ex_state)) (rows ex_assets).
Proof.
  split; [reflexivity|].
  destruct (filtered_view_is_row_subset ex_picks ex_assets ex_state eq_refl)
    as (H1 & H2 & _).
  split; assumption.
Defined.



(** After Company "Bolt" is selected the Building selector offers A and C,
    not B. *)
Example building_options_after_company :
  option_map sel_options (building ex_state)
  = Some [All; Str "A"; Str "C"].
Proof. reflexivity. Qed.




(** A selector is shown exactly when its column is present. *)
Lemma selector_shown_iff_column (c : string) (pick : nat) (d : DataFrame)
  (w : option selector) (d' : DataFrame) :
  categorical_filter c pick d = Ok (w, d') ->
  (w = None <-> has_column c d = false).
Proof.
  unfold categorical_filter. destruct (has_column c d).
  - destruct (sorted _); simpl; [|discriminate].
    intros H. injection H as <- _. split; discriminate.
  - intros H. injection H as <- _. tauto.
Qed.

(** ** Grouped counts *)

Lemma insert_by_perm {A : Type} (leb : A -> A -> bool) (x : A) (l : list A) :
  Permutation (insert_by leb x l) (x :: l).
Proof.
  induction l as [|y l IH]; simpl; [reflexivity|].
  destruct (leb x y); [reflexivity|].
  rewrite IH. apply perm_swap.
Qed.

Lemma sort_by_perm {A : Type} (leb : A -> A -> bool) (l : list A) :
  Permutation (sort_by leb l) l.
Proof.
  induction l as [|x l IH]; simpl; [reflexivity|].
  rewrite insert_by_perm. constructor. exact IH.
Qed.

Lemma total_perm (g g' : list (cell * nat)) :
  Permutation g g' -> total g = total g'.
Proof.
  induction 1; simpl; lia.
Qed.

Lemma total_firstn (n : nat) (g : list (cell * nat)) :
  total (firstn n g) <= total g.
Proof.
  revert n. induction g as [|kv g IH]; intros [|n]; simpl; try lia.
  specialize (IH n). lia.
Qed.

Lemma count_cons (k x : cell) (s : list cell) :
  count k (x :: s) = (if cell_eqb k x then 1 else 0) + count k s.
Proof. unfold count. simpl. destruct (cell_eqb k x); reflexivity. Qed.

Lemma total_counts_cons (x : cell) (s ks : list cell) :
  total (map (fun k => (k, count k (x :: s))) ks)
  = total (map (fun k => (k, if cell_eqb k x then 1 else 0)) ks)
    + total (map (fun k => (k, count k s)) ks).
Proof.
  induction ks as [|k ks IH]; simpl; [reflexivity|].
  rewrite IH, count_cons. lia.
Qed.

Lemma total_indicator_absent (x : cell) (ks : list cell) :
  ~ In x ks ->
  total (map (fun k => (k, if cell_eqb k x then 1 else 0)) ks) = 0.
Proof.
  induction ks as [|k ks IH]; simpl; intros H; [reflexivity|].
  rewrite IH by tauto.
  destruct (cell_eqb k x) eqn:E; [|reflexivity].
  apply cell_eqb_eq in E. tauto.
Qed.

Lemma total_indicator_present (x : cell) (ks : list cell) :
  isna x = false -> NoDup ks -> In x ks ->
  total (map (fun k => (k, if cell_eqb k x then 1 else 0)) ks) = 1.
Proof.
  intros Hx. induction ks as [|k ks IH]; simpl; intros Hn Hin;
    [contradiction|].
  inversion Hn as [|? ? Hk Hn']; subst.
  destruct Hin as [-> | Hin].
  - rewrite (cell_eqb_refl x Hx), total_indicator_absent by assumption.
    reflexivity.
  - rewrite IH by assumption.
    destruct (cell_eqb k x) eqn:E; [|reflexivity].
    apply cell_eqb_eq in E. subst. contradiction.
Qed.

Lemma total_indicator_na (x : cell) (ks : list cell) :
  isna x = true ->
  total (map (fun k => (k, if cell_eqb k x then 1 else 0)) ks) = 0.
Proof.
  intros Hx. induction ks as [|k ks IH]; simpl; [reflexivity|].
  rewrite IH.
  destruct (cell_eqb k x) eqn:E; [|reflexivity].
  apply cell_eqb_true_iff in E. destruct E; congruence.
Qed.

(** The counts of the distinct non-missing values add up to the number of
    non-missing values. *)
Lemma total_counts (s ks : list cell) :
  NoDup ks ->
  (forall v, isna v = false -> In v s -> In v ks) ->
  total (map (fun k => (k, count k s)) ks) = List.length (dropna s).
Proof.
  intros Hn. induction s as [|x s IH]; intros Hks.
  - clear Hn Hks. induction ks as [|k ks IHk]; simpl; [reflexivity|].
    exact IHk.
  - rewrite total_counts_cons, IH by (intros; apply Hks; simpl; auto).
    unfold dropna. simpl. destruct (isna x) eqn:Hx; simpl.
    + rewrite total_indicator_na by assumption. reflexivity.
    + rewrite total_indicator_present; auto. apply Hks; simpl; auto.
Qed.

Lemma total_groupby_size (s : list cell) :
  total (groupby_size s) = List.length (dropna s).
Proof.
  unfold groupby_size. apply total_counts.
  - eapply Permutation_NoDup; [symmetry; apply sort_by_perm|].
    apply unique_dropna_NoDup.
  - intros v Hv Hin.
    apply (Permutation_in _ (Permutation_sym (sort_by_perm _ _))).
    apply unique_dropna_In. tauto.
Qed.

Lemma total_value_counts (s : list cell) :
  total (value_counts s) = List.length (dropna s).
Proof.
  unfold value_counts. rewrite (total_perm _ _ (sort_by_perm _ _)).
  apply total_counts.
  - apply unique_dropna_NoDup.
  - intros v Hv Hin. apply unique_dropna_In. tauto.
Qed.

Lemma value_counts_length (s : list cell) :
  List.length (value_counts s) = List.length (unique (dropna s)).
Proof.
  unfold value_counts.
  rewrite (Permutation_length (sort_by_perm _ _)). apply length_map.
Qed.

Lemma dropna_all (s : list cell) :
  forallb (fun c => negb (isna c)) s = true -> dropna s = s.
Proof.
  unfold dropna. induction s as [|x s IH]; simpl; [reflexivity|].
  intros H. apply andb_true_iff in H as [-> H]. rewrite IH; auto.
Qed.

(** C5, as stated, fails: a row whose Building is missing belongs to no
    group, so the Location counts add up to less than Total Assets. *)
Lemma building_counts_miss_rows :
  match sidebar no_picks ex_missing_building with
  | Ok st =>
      exists g, location_building_df (view st) = Some g /\
                total g <> total_assets (view st)
  | Raise _ => False
  end.
Proof.
  simpl. eexists. split; [reflexivity|]. vm_compute. discriminate.
Qed.

(** C5, amended.  When the view has a Building column, the Location panel's
    per-Building counts add up to the number of rows whose Building is not
    missing; the Overview panel's counts, limited to the ten most frequent
    Buildings, add up to at most that number, and to exactly that number
    when at most ten distinct Buildings occur.  Both therefore add up to
    Total Assets when no Building is missing and at most ten occur. *)
Theorem building_counts_total (df : DataFrame) :
  has_column "Building" df = true ->
  exists loc ov,
    location_building_df df = Some loc /\
    overview_building_counts df = Some ov /\
    total loc = List.length (dropna (column "Building" df)) /\
    total ov <= total loc /\
    (List.length (unique (dropna (column "Building" df))) <= 10 ->
     total ov = total loc) /\
    (forallb (fun c => negb (isna c)) (column "Building" df) = true ->
     total loc = total_assets df /\
     (List.length (unique (column "Building" df)) <= 10 ->
      total ov = total_assets df)).
Proof.
  intros H. unfold location_building_df, overview_building_counts.
  rewrite H. eexists. eexists. split; [reflexivity|]. split; [reflexivity|].
  unfold sort_values_desc.
  rewrite (total_perm _ _ (sort_by_perm _ _)), total_groupby_size.
  assert (List.length (unique (dropna (column "Building" df))) <= 10 ->
          total (firstn 10 (value_counts (column "Building" df)))
          = List.length (dropna (column "Building" df))) as Hten.
  { intros Hl. rewrite firstn_all2, total_value_counts; [reflexivity|].
    rewrite value_counts_length. exact Hl. }
  split; [reflexivity|]. split.
  - rewrite <- (total_value_counts (column "Building" df)).
    apply total_firstn.
  - split; [exact Hten|].
    intros Hna. rewrite (dropna_all _ Hna) in *.
    assert (List.length (column "Building" df) = total_assets df) as Hlen
      by (unfold column, total_assets, len; apply length_map).
    split; [exact Hlen|]. intros Hl. rewrite (Hten Hl). exact Hlen.
Qed.

Lemma building_counts_witness :
  has_column "Building" ex_assets = true /\
  exists loc ov,
    location_building_df ex_assets = Some loc /\
    overview_building_counts ex_assets = Some ov /\
    total loc = List.length (dropna (column "Building" ex_assets)) /\
    total ov <= total loc.
Proof.
  split; [reflexivity|].
  destruct (building_counts_total ex_assets eq_refl)
    as (loc & ov & H1 & H2 & H3 & H4 & _).
  exists loc, ov. auto.
Defined.

(** ** Column assignment *)

Lemma col_index_lt (c : string) (cols : list string) (i : nat) :
  col_index c cols = Some i -> i < List.length cols.
Proof.
  revert i. induction cols as [|c' cols IH]; simpl; intros i H;
    [discriminate|].
  destruct (String.eqb c c').
  - injection H as <-. lia.
  - destruct (col_index c cols) as [j|]; simpl in H; [|discriminate].
    injection H as <-. specialize (IH j eq_refl). lia.
Qed.

Lemma col_index_app_new (c : string) (cols : list string) :
  col_index c cols = None ->
  col_index c (cols ++ [c]) = Some (List.length cols).
Proof.
  induction cols as [|c' cols IH]; simpl; intros H.
  - rewrite String.eqb_refl. reflexivity.
  - destruct (String.eqb c c'); [discriminate|].
    destruct (col_index c cols); [discriminate|].
    rewrite IH by reflexivity. reflexivity.
Qed.

Lemma col_index_app_other (c c' : string) (cols : list string) :
  c <> c' -> col_index c (cols ++ [c']) = col_index c cols.
Proof.
  intros Hne. induction cols as [|a cols IH]; simpl.
  - apply String.eqb_neq in Hne. rewrite Hne. reflexivity.
  - destruct (String.eqb c a); [reflexivity|]. rewrite IH. reflexivity.
Qed.

Lemma col_index_inj (c c' : string) (cols : list string) (i : nat) :
  col_index c cols = Some i -> col_index c' cols = Some i -> c = c'.
Proof.
  revert i. induction cols as [|a cols IH]; simpl; intros i H H';
    [discriminate|].
  destruct (String.eqb c a) eqn:E, (String.eqb c' a) eqn:E'.
  - apply String.eqb_eq in E, E'. congruence.
  - destruct (col_index c' cols); simpl in H'; [|discriminate].
    injection H as <-. discriminate.
  - destruct (col_index c cols); simpl in H; [|discriminate].
    injection H' as <-. discriminate.
  - destruct (col_index c cols) as [j|]; simpl in H; [|discriminate].
    destruct (col_index c' cols) as [j'|]; simpl in H'; [|discriminate].
    injection H as <-. injection H' as E2. apply (IH j); congruence.
Qed.

Lemma nth_set_nth_same (i : nat) (v : cell) (l : list cell) :
  nth i (set_nth i v l) NaN = v.
Proof.
  revert l. induction i as [|i IH]; intros [|x l]; simpl; auto.
Qed.

Lemma nth_set_nth_other (i j : nat) (v : cell) (l : list cell) :
  i <> j -> nth i (set_nth j v l) NaN = nth i l NaN.
Proof.
  revert i l. induction j as [|j IH]; intros [|i] [|x l] H; simpl;
    try congruence; try reflexivity.
  - destruct i; reflexivity.
  - rewrite IH by congruence. destruct i; reflexivity.
  - apply IH. congruence.
Qed.

Lemma map_snd_combine_eq {A B : Type} (l : list A) (l' : list B) :
  List.length l = List.length l' -> map snd (combine l l') = l'.
Proof.
  revert l'. induction l as [|x l IH]; intros [|y l'] H; simpl in *;
    try discriminate; [reflexivity|].
  rewrite IH by congruence. reflexivity.
Qed.

Lemma map_fst_combine_eq {A B : Type} (l : list A) (l' : list B) :
  List.length l = List.length l' -> map fst (combine l l') = l.
Proof.
  revert l'. induction l as [|x l IH]; intros [|y l'] H; simpl in *;
    try discriminate; [reflexivity|].
  rewrite IH by congruence. reflexivity.
Qed.

Lemma column_assign_same (c : string) (vals : list cell) (df : DataFrame) :
  List.length vals = List.length (rows df) ->
  column c (assign c vals df) = vals.
Proof.
  intros Hlen. unfold assign, column, cell_at.
  destruct (col_index c (columns df)) as [i|] eqn:E; simpl.
  - rewrite E, map_map. simpl.
    rewrite <- (map_snd_combine_eq (rows df) vals) at 2 by congruence.
    apply map_ext. intros rv. apply nth_set_nth_same.
  - rewrite (col_index_app_new _ _ E), map_map. simpl.
    rewrite <- (map_snd_combine_eq (rows df) vals) at 2 by congruence.
    apply map_ext. intros rv. apply nth_set_nth_same.
Qed.

Lemma column_assign_other (c c' : string) (vals : list cell)
  (df : DataFrame) :
  c <> c' -> List.length vals = List.length (rows df) ->
  column c (assign c' vals df) = column c df.
Proof.
  intros Hne Hlen. unfold assign, column, cell_at.
  destruct (col_index c' (columns df)) as [j|] eqn:E'; simpl.
  - rewrite map_map. simpl.
    rewrite <- (map_fst_combine_eq (rows df) vals) at 2 by congruence.
    rewrite map_map. apply map_ext. intros rv.
    destruct (col_index c (columns df)) as [i|] eqn:E; [|reflexivity].
    apply nth_set_nth_other. intros ->. apply Hne.
    eapply col_index_inj; eassumption.
  - rewrite (col_index_app_other _ _ _ Hne), map_map. simpl.
    rewrite <- (map_fst_combine_eq (rows df) vals) at 2 by congruence.
    rewrite map_map. apply map_ext. intros rv.
    destruct (col_index c (columns df)) as [i|] eqn:E; [|reflexivity].
    apply nth_set_nth_other. apply col_index_lt in E. lia.
Qed.

Lemma rows_assign_length (c : string) (vals : list cell) (df : DataFrame) :
  List.length vals = List.length (rows df) ->
  List.length (rows (assign c vals df)) = List.length (rows df).
Proof.
  intros Hlen. unfold assign.
  destruct (col_index c (columns df)); simpl;
    rewrite length_map, length_combine; lia.
Qed.

Lemma column_length (c : string) (df : DataFrame) :
  List.length (column c df) = List.length (rows df).
Proof. unfold column. apply length_map. Qed.

Lemma column_dropna_subset (c : string) (df : DataFrame) :
  column c (dropna_subset c df) = dropna (column c df).
Proof.
  unfold column, dropna_subset, dropna. simpl.
  induction (rows df) as [|r l IH]; simpl; [reflexivity|].
  destruct (isna (cell_at (columns df) c r)); simpl; rewrite IH; reflexivity.
Qed.

(** ** Timeline *)

Lemma dropna_map_length (f : cell -> cell) (s : list cell) :
  (forall c, In c s -> isna (f c) = false) ->
  List.length (dropna (map f s)) = List.length s.
Proof.
  unfold dropna. induction s as [|x s IH]; simpl; intros H; [reflexivity|].
  rewrite (H x) by auto. simpl. rewrite IH; auto.
Qed.

Lemma to_datetime_dates (parse : cell -> option date) (s : list cell) :
  forall c, In c (dropna (map (to_datetime parse) s)) ->
            exists d, c = Date d.
Proof.
  intros c H. apply dropna_In in H as [Hna H].
  apply in_map_iff in H as (x & <- & _).
  unfold to_datetime in *.
  destruct x; simpl in *; try discriminate; eauto;
    destruct (parse _); simpl in *; try discriminate; eauto.
Qed.

(** The data behind the two charts: the dates read from the column, grouped
    by day and grouped by month. *)
Lemma date_added_block_charts (parse : cell -> option date) (df : DataFrame)
  (t : timeline) :
  snd (date_added_block parse df) = Some t ->
  let dates := dropna (map (to_datetime parse) (column "Date Added" df)) in
  daily_additions t
    = sort_by (fun a b => key_leb (fst a) (fst b))
              (groupby_size (map dt_date dates)) /\
  monthly_additions t = groupby_size (map year_month dates).
Proof.
  unfold date_added_block.
  destruct (has_column "Date Added" df); [|discriminate].
  set (df1 := assign "Date Added" _ df).
  set (dwd := dropna_subset "Date Added" df1).
  destruct (empty dwd); simpl; [discriminate|].
  intros H. injection H as <-. simpl.
  assert (column "Date Added" dwd
          = dropna (map (to_datetime parse) (column "Date Added" df))) as E.
  { unfold dwd. rewrite column_dropna_subset. unfold df1.
    rewrite column_assign_same; [reflexivity|].
    rewrite length_map. apply column_length. }
  assert (List.length (map dt_date (column "Date Added" dwd))
          = List.length (rows dwd)) as L1
    by (rewrite length_map; apply column_length).
  split.
  - rewrite column_assign_same by exact L1. rewrite E. reflexivity.
  - rewrite column_assign_same.
    + rewrite column_assign_other by (exact L1 || discriminate).
      rewrite E. reflexivity.
    + rewrite length_map, column_length. reflexivity.
Qed.

(** C9.  When the Date Added charts are drawn, the monthly counts add up to
    the same total as the daily counts, namely the number of rows whose
    Date Added is read as a date. *)
Theorem monthly_total_is_daily_total (parse : cell -> option date)
  (df : DataFrame) (t : timeline) :
  snd (date_added_block parse df) = Some t ->
  total (monthly_additions t) = total (daily_additions t) /\
  total (daily_additions t)
  = parsable_dates parse (column "Date Added" df).
Proof.
  intros H. destruct (date_added_block_charts _ _ _ H) as [-> ->].
  rewrite (total_perm _ _ (sort_by_perm _ _)), !total_groupby_size.
  unfold parsable_dates.
  rewrite (dropna_map_length dt_date), (dropna_map_length year_month)
    by (intros c Hc; apply to_datetime_dates in Hc as [d ->]; reflexivity).
  split; reflexivity.
Qed.

Lemma monthly_total_witness :
  snd (date_added_block no_date ex_dated) = Some ex_timeline /\
  total (monthly_additions ex_timeline) = total (daily_additions ex_timeline).
Proof.
  split; [reflexivity|].
  apply (monthly_total_is_daily_total no_date ex_dated ex_timeline).
  reflexivity.
Defined.

(** The charts are drawn exactly when the column is there and holds a
    date. *)
Lemma date_added_block_drawn (parse : cell -> option date) (df : DataFrame) :
  has_column "Date Added" df = true ->
  0 < parsable_dates parse (column "Date Added" df) ->
  exists t, snd (date_added_block parse df) = Some t.
Proof.
  intros Hc Hp. unfold date_added_block. rewrite Hc.
  set (df1 := assign "Date Added" _ df).
  assert (List.length (rows (dropna_subset "Date Added" df1))
          = parsable_dates parse (column "Date Added" df)) as E.
  { rewrite <- column_length with (c := "Date Added").
    rewrite column_dropna_subset. unfold df1.
    rewrite column_assign_same; [reflexivity|].
    rewrite length_map. apply column_length. }
  unfold empty.
  destruct (rows (dropna_subset "Date Added" df1)); simpl in *.
  - lia.
  - eexists; reflexivity.
Qed.

(** ** Depreciation metrics *)






(** ** Search *)



Lemma lower_string_app (s t : string) :
  lower_string (s ++ t) = (lower_string s ++ lower_string t)%string.
Proof. induction s as [|a s IH]; simpl; [reflexivity | rewrite IH; reflexivity]. Qed.

Lemma match_here_literal (t : string) : forall text,
  match_here (literal t) text = true <->
  exists mid post,
    text = (mid ++ post)%string /\ lower_string mid = lower_string t.
Proof.
  unfold literal. induction t as [|a t IH]; intros text; simpl.
  - split; [|reflexivity]. intros _. exists "", text. split; reflexivity.
  - destruct text as [|b text].
    + split; [discriminate|].
      intros (mid & post & E & Hl).
      destruct mid; simpl in *; discriminate.
    + rewrite andb_true_iff, IH. unfold eqb_nocase. rewrite Ascii.eqb_eq.
      split.
      * intros (Hab & mid & post & -> & Hl).
        exists (String b mid), post. simpl. split; [reflexivity|].
        congruence.
      * intros (mid & post & E & Hl).
        destruct mid as [|c mid]; simpl in *; [discriminate|].
        injection E as <- ->. injection Hl as Hc Hl.
        split; [congruence|]. exists mid, post. split; [reflexivity|].
        assumption.
Qed.

Lemma re_search_iff (items : list re_item) : forall text,
  re_search items text = true <->
  exists pre rest,
    text = (pre ++ rest)%string /\ match_here items rest = true.
Proof.
  induction text as [|b text IH]; simpl; rewrite orb_true_iff.
  - split.
    + intros [H | H]; [|discriminate]. exists "", "". split; [reflexivity|].
      assumption.
    + intros (pre & rest & E & H). left.
      destruct pre; simpl in E; [|discriminate]. subst. assumption.
  - rewrite IH. split.
    + intros [H | (pre & rest & -> & H)].
      * exists "", (String b text). split; [reflexivity | assumption].
      * exists (String b pre), rest. split; [reflexivity | assumption].
    + intros (pre & rest & E & H).
      destruct pre as [|c pre]; simpl in E.
      * left. subst. assumption.
      * injection E as <- ->. right. exists pre, rest.
        split; [reflexivity | assumption].
Qed.

(** A pattern of literal characters is found exactly where the term occurs
    as a substring, letter case aside. *)
Lemma re_search_literal (t text : string) :
  re_search (literal t) text = true <-> contains_nocase t text.
Proof.
  rewrite re_search_iff. unfold contains_nocase. split.
  - intros (pre & rest & -> & H).
    apply match_here_literal in H as (mid & post & -> & Hl).
    exists pre, mid, post. split; [reflexivity | assumption].
  - intros (pre & mid & post & -> & Hl).
    exists pre, (mid ++ post)%string. split; [reflexivity|].
    apply match_here_literal. exists mid, post.
    split; [reflexivity | assumption].
Qed.



(** The text of a number is searched like any other: "02" is found in
    1024. *)
Example search_numeric_cell :
  option_map (fun d => map fst (rows d))
             (match search "02" ex_serials with
              | Ok d => Some d
              | Raise _ => None
              end)
  = Some [0].
Proof. reflexivity. Qed.

(** C2, at the term "a.c": the search reads the term as a regular
    expression, so the dot stands for any character and the row with serial
    "abc" is retained although none of its cells contains "a.c". *)
Theorem search_dot_matches_any_character :
  search "a.c" ex_serials
  = Ok (mkDF ["Asset ID"; "Serial #"] [(0, [Int 1024; Str "abc"])]) /\
  ~ contains_nocase "a.c" (astype_str (Int 1024)) /\
  ~ contains_nocase "a.c" (astype_str (Str "abc")).
Proof.
  split; [reflexivity|].
  split; intros H; apply re_search_literal in H; vm_compute in H;
    discriminate.
Qed.

(** C8.  With an empty term the search returns the table unchanged; with no
    column selected the panel displays it as it is, and with a selection it
    displays the same rows, one per index label and in the same order,
    narrowed to the selected columns. *)
Theorem empty_search_is_identity (df : DataFrame) :
  search "" df = Ok df /\
  data_table_panel "" [] df = Ok (mkDataTable df (to_csv df)) /\
  forall selected out,
    data_table_panel "" selected df = Ok out ->
    map fst (rows (display_df out)) = map fst (rows df).
Proof.
  split; [reflexivity|]. split; [reflexivity|].
  intros selected out. unfold data_table_panel. simpl.
  destruct selected as [|c selected].
  - intros H. injection H as <-. reflexivity.
  - unfold select_columns.
    destruct (forallb _ _); simpl; [|discriminate].
    intros H. injection H as <-. simpl. rewrite map_map. reflexivity.
Qed.

Lemma empty_search_witness :
  data_table_panel "" ["Serial #"] ex_serials = Ok ex_serials_shown /\
  map fst (rows (display_df ex_serials_shown)) = map fst (rows ex_serials).
Proof.
  split; [reflexivity|].
  destruct (empty_search_is_identity ex_serials) as (_ & _ & H).
  apply (H ["Serial #"] ex_serials_shown). reflexivity.
Defined.

(** ** From the sidebar to the export *)

Lemma assign_columns (c : string) (vals : list cell) (df : DataFrame) :
  has_column c df = true -> columns (assign c vals df) = columns df.
Proof.
  unfold has_column, assign.
  destruct (col_index c (columns df)); [reflexivity | discriminate].
Qed.

Lemma assign_labels (c : string) (vals : list cell) (df : DataFrame) :
  List.length vals = List.length (rows df) ->
  map fst (rows (assign c vals df)) = map fst (rows df).
Proof.
  intros Hlen. unfold assign.
  destruct (col_index c (columns df)); simpl; rewrite map_map; simpl;
    rewrite <- (map_fst_combine_eq (rows df) vals) at 2 by congruence;
    rewrite map_map; reflexivity.
Qed.

Lemma same_frame_refl (d : DataFrame) : same_frame d d.
Proof. split; reflexivity. Qed.

Lemma same_frame_trans (d1 d2 d3 : DataFrame) :
  same_frame d1 d2 -> same_frame d2 d3 -> same_frame d1 d3.
Proof. unfold same_frame. intros [-> ->] [-> ->]. auto. Qed.

Lemma assign_same_frame (c : string) (f : cell -> cell) (df : DataFrame) :
  has_column c df = true ->
  same_frame df (assign c (map f (column c df)) df).
Proof.
  intros H. split.
  - apply assign_columns, H.
  - apply assign_labels. rewrite length_map. apply column_length.
Qed.

Lemma coerce_column_same_frame (c : string) (f : cell -> cell)
  (df : DataFrame) :
  same_frame df (coerce_column c f df).
Proof.
  unfold coerce_column. destruct (has_column c df) eqn:E.
  - apply assign_same_frame, E.
  - apply same_frame_refl.
Qed.

Lemma date_added_block_df (parse : cell -> option date) (df : DataFrame) :
  fst (date_added_block parse df)
  = coerce_column "Date Added" (to_datetime parse) df.
Proof.
  unfold date_added_block, coerce_column.
  destruct (has_column "Date Added" df); [|reflexivity].
  destruct (empty _); reflexivity.
Qed.

Lemma depreciation_block_same_frame (parse : cell -> option Z)
  (df : DataFrame) :
  same_frame df (fst (depreciation_block parse df)).
Proof.
  unfold depreciation_block.
  destruct (has_column "Depreciated Value" df) eqn:E;
    [|apply same_frame_refl].
  pose proof (assign_same_frame "Depreciated Value" (to_numeric parse) df E)
    as F1.
  destruct (empty _); simpl; [exact F1|].
  destruct (has_column "Amount Depreciated" _) eqn:E2; simpl; [|exact F1].
  eapply same_frame_trans; [exact F1|].
  apply assign_same_frame, E2.
Qed.

Lemma before_data_table_same_frame (parse_date : cell -> option date)
  (parse_number : cell -> option Z) (df : DataFrame) :
  same_frame df (before_data_table parse_date parse_number df).
Proof.
  unfold before_data_table, last_updated_block, cost_block.
  rewrite date_added_block_df.
  eapply same_frame_trans; [|apply depreciation_block_same_frame].
  eapply same_frame_trans; [|apply coerce_column_same_frame].
  eapply same_frame_trans; [|apply coerce_column_same_frame].
  apply coerce_column_same_frame.
Qed.





(** ** The page on examples *)

(** Nothing but the instructions without an upload; the error message for a
    table without rows. *)
Lemma main_without_table (parse_date : cell -> option date)
  (parse_number : cell -> option Z) (p : picks) (t : string)
  (selected : list string) (cols : list string) :
  main parse_date parse_number p t selected None = Ok Instructions /\
  main parse_date parse_number p t selected (Some None) = Ok LoadError /\
  main parse_date parse_number p t selected (Some (Some (mkDF cols [])))
  = Ok LoadError.
Proof. repeat split. Qed.

(** Building "A" selected in the scenario of the specification: assets 1
    and 3 remain, both active. *)
Example scenario_building_A :
  match sidebar (mkPicks 0 1 0 0 0) ex_scenario with
  | Ok st =>
      map (cell_at (columns (view st)) "Asset ID") (rows (view st))
      = [Int 1; Int 3] /\
      len (select_eq "Active" (Str "Yes") (view st)) = 2
  | Raise _ => False
  end.
Proof. split; reflexivity. Qed.

(** The Financial panel runs before the Data Table panel and rewrites Cost
    in place: the text "bad" is gone by the time the search looks for it. *)
Example search_after_cost_coercion :
  match dashboard no_date int_literal no_picks "bad" [] ex_bad_cost with
  | Ok pg => csv (table pg) = [["Serial #"; "Cost"]]
  | Raise _ => False
  end.
Proof. reflexivity. Qed.

(** * Further properties of the page *)

(** ** The sidebar: failures, selections, empty views *)

Lemma insert_sorted_raises (x : cell) (l : list cell) (e : exn) :
  insert_sorted x l = Raise e -> e = TypeError.
Proof.
  induction l as [|y l IH]; simpl; [discriminate|].
  destruct (cell_compare x y) as [[| |]|]; try discriminate.
  - destruct (insert_sorted x l); simpl; [discriminate|].
    intros H. injection H as <-. apply IH. reflexivity.
  - intros H. injection H as <-. reflexivity.
Qed.

Lemma sorted_raises (l : list cell) (e : exn) :
  sorted l = Raise e -> e = TypeError.
Proof.
  induction l as [|x l IH]; simpl; [discriminate|].
  destruct (sorted l) as [s|e'] eqn:E; simpl.
  - apply insert_sorted_raises.
  - intros H. injection H as <-. apply IH. reflexivity.
Qed.

Lemma categorical_filter_raises (c : string) (pick : nat) (d : DataFrame)
  (e : exn) :
  categorical_filter c pick d = Raise e -> e = TypeError.
Proof.
  unfold categorical_filter. destruct (has_column c d); [|discriminate].
  destruct (sorted _) as [s|e'] eqn:E; simpl; [discriminate|].
  intros H. injection H as <-. eapply sorted_raises, E.
Qed.

(** X1.  The sidebar raises nothing but [TypeError], and only on a loaded
    table one of whose Company, Building, Room Name and Status columns mixes
    values of different types. *)
Theorem sidebar_raises_on_mixed_types (p : picks) (df : DataFrame) (e : exn) :
  sidebar p df = Raise e ->
  e = TypeError /\
  (comparable_column "Company" df = false \/
   comparable_column "Building" df = false \/
   comparable_column "Room Name" df = false \/
   comparable_column "Status" df = false).
Proof.
  intros H. split.
  - revert H. unfold sidebar.
    destruct (categorical_filter "Company" _ df) as [[w1 d1]|e1] eqn:E1;
      simpl; [|intros H; injection H as <-;
               eapply categorical_filter_raises, E1].
    destruct (categorical_filter "Building" _ d1) as [[w2 d2]|e2] eqn:E2;
      simpl; [|intros H; injection H as <-;
               eapply categorical_filter_raises, E2].
    destruct (categorical_filter "Room Name" _ d2) as [[w3 d3]|e3] eqn:E3;
      simpl; [|intros H; injection H as <-;
               eapply categorical_filter_raises, E3].
    destruct (categorical_filter "Status" _ d3) as [[w4 d4]|e4] eqn:E4;
      simpl; [|intros H; injection H as <-;
               eapply categorical_filter_raises, E4].
    destruct (active_filter _ d4). discriminate.
  - destruct (comparable_column "Company" df) eqn:C1; [|auto].
    destruct (comparable_column "Building" df) eqn:C2; [|auto].
    destruct (comparable_column "Room Name" df) eqn:C3; [|auto].
    destruct (comparable_column "Status" df) eqn:C4; [|auto].
    destruct (sidebar_total p df C1 C2 C3 C4) as [st Hst]. congruence.
Qed.

Lemma sidebar_raises_witness :
  sidebar no_picks ex_mixed = Raise TypeError /\
  comparable_column "Building" ex_mixed = false.
Proof.
  split; [reflexivity|].
  destruct (sidebar_raises_on_mixed_types no_picks ex_mixed TypeError eq_refl)
    as [_ [H | [H | [H | H]]]]; try discriminate H. exact H.
Defined.

Lemma categorical_filter_value (c : string) (pick : nat) (d : DataFrame)
  (s : selector) (d' : DataFrame) :
  categorical_filter c pick d = Ok (Some s, d') ->
  In (sel_value s) (sel_options s) /\
  sel_value s = selectbox (sel_options s) pick /\
  d' = (if negb (cell_eqb (sel_value s) All)
        then select_eq c (sel_value s) d else d).
Proof.
  unfold categorical_filter. destruct (has_column c d); [|discriminate].
  destruct (sorted _) as [vals|]; simpl; [|discriminate].
  intros H. injection H as <- <-. cbn [sel_value sel_options].
  split; [apply selectbox_In; discriminate|]. split; reflexivity.
Qed.

Lemma active_filter_value (pick : nat) (d : DataFrame)
  (s : selector) (d' : DataFrame) :
  active_filter pick d = (Some s, d') ->
  In (sel_value s) (sel_options s) /\
  sel_value s = selectbox (sel_options s) pick /\
  d' = (if negb (cell_eqb (sel_value s) All)
        then select_eq "Active" (sel_value s) d else d).
Proof.
  unfold active_filter. destruct (has_column "Active" d); [|discriminate].
  intros H. injection H as <- <-. cbn [sel_value sel_options].
  split; [apply selectbox_In; discriminate|]. split; reflexivity.
Qed.

Lemma selected_at_pick (p : picks) (df : DataFrame) (st : sidebar_state) :
  sidebar p df = Ok st ->
  forall w pick,
    In (w, pick) [(company st, pick_company p);
                  (building st, pick_building p);
                  (room st, pick_room p);
                  (status st, pick_status p);
                  (active st, pick_active p)] ->
    forall s, w = Some s -> sel_value s = selectbox (sel_options s) pick.
Proof.
  intros H w pick Hin s ->.
  destruct (sidebar_inv _ _ _ H)
    as (d1 & d2 & d3 & d4 & H1 & H2 & H3 & H4 & H5).
  simpl in Hin.
  destruct Hin as [E | [E | [E | [E | [E | []]]]]]; injection E as E <-.
  - rewrite E in H1. apply categorical_filter_value in H1. tauto.
  - rewrite E in H2. apply categorical_filter_value in H2. tauto.
  - rewrite E in H3. apply categorical_filter_value in H3. tauto.
  - rewrite E in H4. apply categorical_filter_value in H4. tauto.
  - rewrite E in H5. apply active_filter_value in H5. tauto.
Qed.



Lemma sidebar_view_In (p : picks) (df : DataFrame) (st : sidebar_state) :
  sidebar p df = Ok st ->
  forall r, In r (rows (view st)) ->
            In r (rows df) /\
            holds (columns df) "Company" (company st) r /\
            holds (columns df) "Building" (building st) r /\
            holds (columns df) "Room Name" (room st) r /\
            holds (columns df) "Status" (status st) r /\
            holds (columns df) "Active" (active st) r.
Proof.
  intros H r.
  destruct (sidebar_chain _ _ _ H)
    as (d1 & d2 & d3 & d4 & (N1 & N2 & N3 & N4 & N5) & _
        & (C1 & C2 & C3 & C4 & _) & _).
  rewrite (narrows_In _ _ _ _ N5), (narrows_In _ _ _ _ N4),
    (narrows_In _ _ _ _ N3), (narrows_In _ _ _ _ N2),
    (narrows_In _ _ _ _ N1), C1, C2, C3, C4.
  tauto.
Qed.

Lemma narrows_nothing (c : string) (w : option selector) (d d' : DataFrame) :
  narrows c w d d' -> applied w = None -> d' = d.
Proof. unfold narrows. intros [_ H] E. rewrite E in H. exact H. Qed.

Lemma first_option_applies_nothing (s : selector) (l : list cell) :
  sel_options s = All :: l -> sel_value s = selectbox (sel_options s) 0 ->
  applied (Some s) = None.
Proof. intros Ho Hv. simpl. rewrite Hv, Ho. reflexivity. Qed.

(** X3.  When every selector is left on the sentinel (or is absent) the view
    is the loaded table itself; this is so in particular when the user has
    picked nothing. *)
Theorem no_selection_no_filtering (p : picks) (df : DataFrame)
  (st : sidebar_state) :
  sidebar p df = Ok st ->
  (applied (company st) = None -> applied (building st) = None ->
   applied (room st) = None -> applied (status st) = None ->
   applied (active st) = None -> view st = df) /\
  (p = no_picks -> view st = df).
Proof.
  intros H.
  destruct (sidebar_chain _ _ _ H)
    as (d1 & d2 & d3 & d4 & (N1 & N2 & N3 & N4 & N5) & _ & _
        & (O1 & O2 & O3 & O4 & O5)).
  assert (applied (company st) = None -> applied (building st) = None ->
          applied (room st) = None -> applied (status st) = None ->
          applied (active st) = None -> view st = df) as Hall.
  { intros A1 A2 A3 A4 A5.
    rewrite (narrows_nothing _ _ _ _ N5 A5), (narrows_nothing _ _ _ _ N4 A4),
      (narrows_nothing _ _ _ _ N3 A3), (narrows_nothing _ _ _ _ N2 A2).
    apply (narrows_nothing _ _ _ _ N1 A1). }
  split; [exact Hall|]. intros ->.
  assert (forall w,
            In (w, 0) [(company st, 0); (building st, 0); (room st, 0);
                       (status st, 0); (active st, 0)] ->
            (forall s, w = Some s -> exists l, sel_options s = All :: l) ->
            applied w = None) as Hz.
  { intros w Hin Ho. destruct w as [s|]; [|reflexivity].
    destruct (Ho s eq_refl) as [l Hl].
    apply (first_option_applies_nothing s l Hl).
    apply (selected_at_pick no_picks df st H (Some s) 0 Hin s eq_refl). }
  apply Hall; apply Hz; simpl; auto 7; intros s Hs.
  - destruct (O1 s Hs) as (l & Hl & _). eauto.
  - destruct (O2 s Hs) as (l & Hl & _). eauto.
  - destruct (O3 s Hs) as (l & Hl & _). eauto.
  - destruct (O4 s Hs) as (l & Hl & _). eauto.
  - rewrite (O5 s Hs). eauto.
Qed.

Lemma no_selection_witness :
  sidebar no_picks ex_scenario = Ok ex_scenario_all /\
  view ex_scenario_all = ex_scenario.
Proof.
  split; [reflexivity|].
  apply (no_selection_no_filtering no_picks ex_scenario ex_scenario_all
           eq_refl).
  reflexivity.
Defined.

Lemma empty_false_iff (d : DataFrame) :
  empty d = false <-> exists r, In r (rows d).
Proof.
  unfold empty. destruct (rows d) as [|r l]; split.
  - discriminate.
  - intros [r []].
  - intros _. exists r. left; reflexivity.
  - reflexivity.
Qed.

Lemma applied_Some (s : selector) (v : cell) :
  applied (Some s) = Some v ->
  sel_value s = v /\ cell_eqb v All = false.
Proof.
  simpl. destruct (cell_eqb (sel_value s) All) eqn:E; [discriminate|].
  intros H. injection H as <-. auto.
Qed.

(** A block that offers the values of its column cannot empty the table. *)
Lemma categorical_filter_nonempty (c : string) (pick : nat)
  (d : DataFrame) (w : option selector) (d' : DataFrame) :
  categorical_filter c pick d = Ok (w, d') ->
  empty d = false -> empty d' = false.
Proof.
  intros H Hne.
  destruct (categorical_filter_spec _ _ _ _ _ H) as (N & _ & O).
  destruct (applied w) as [v|] eqn:A.
  - destruct w as [s|]; [|discriminate].
    apply applied_Some in A as [Hv Hall].
    apply categorical_filter_value in H as (Hin & _ & _).
    destruct (O s eq_refl) as (l & Hl & _ & Hmem).
    rewrite Hl, Hv in Hin. destruct Hin as [<- | Hin]; [discriminate|].
    apply Hmem in Hin as [_ Hin]. apply column_In in Hin as (r & Hr & Hc).
    apply empty_false_iff. exists r.
    apply (narrows_In _ _ _ _ N). split; [exact Hr|].
    unfold holds. simpl. rewrite Hv, Hall. exact Hc.
  - rewrite (narrows_nothing _ _ _ _ N A). exact Hne.
Qed.

(** X4.  Only the Active selector can leave the view without rows: if the
    loaded table has rows and the Active selector is absent or left on the
    sentinel, the view has rows. *)
Theorem only_active_can_empty_the_view (p : picks) (df : DataFrame)
  (st : sidebar_state) :
  sidebar p df = Ok st ->
  empty df = false ->
  applied (active st) = None ->
  empty (view st) = false.
Proof.
  intros H Hne A.
  destruct (sidebar_inv _ _ _ H)
    as (d1 & d2 & d3 & d4 & H1 & H2 & H3 & H4 & H5).
  apply active_filter_spec in H5 as (N5 & _).
  rewrite (narrows_nothing _ _ _ _ N5 A).
  eapply categorical_filter_nonempty; [exact H4|].
  eapply categorical_filter_nonempty; [exact H3|].
  eapply categorical_filter_nonempty; [exact H2|].
  eapply categorical_filter_nonempty; [exact H1|].
  exact Hne.
Qed.

Lemma only_active_witness :
  sidebar (mkPicks 0 1 0 0 0) ex_scenario = Ok ex_scenario_A /\
  empty (view ex_scenario_A) = false.
Proof.
  split; [reflexivity|].
  apply (only_active_can_empty_the_view (mkPicks 0 1 0 0 0) ex_scenario
           ex_scenario_A); reflexivity.
Defined.

(** ** Key metrics *)

Lemma filter_keeps_all {A : Type} (f : A -> bool) (l : list A) :
  (forall x, In x l -> f x = true) -> filter f l = l.
Proof.
  induction l as [|x l IH]; simpl; intros H; [reflexivity|].
  rewrite (H x) by auto. rewrite IH; auto.
Qed.

Lemma filter_keeps_none {A : Type} (f : A -> bool) (l : list A) :
  (forall x, In x l -> f x = false) -> filter f l = [].
Proof.
  induction l as [|x l IH]; simpl; intros H; [reflexivity|].
  rewrite (H x) by auto. apply IH; auto.
Qed.

Lemma filter_length_le {A : Type} (f : A -> bool) (l : list A) :
  List.length (filter f l) <= List.length l.
Proof.
  induction l as [|x l IH]; simpl; [lia|]. destruct (f x); simpl; lia.
Qed.

(** X5.  The Active Assets metric never exceeds Total Assets; it equals
    Total Assets when "Yes" is selected in the Active selector and is zero
    when "No" is. *)
Theorem active_metric_follows_selector (p : picks) (df : DataFrame)
  (st : sidebar_state) :
  sidebar p df = Ok st ->
  active_count (view st) <= total_assets (view st) /\
  (applied (active st) = Some (Str "Yes") ->
   active_count (view st) = total_assets (view st)) /\
  (applied (active st) = Some (Str "No") -> active_count (view st) = 0).
Proof.
  intros H. unfold active_count, total_assets, len, select_eq. simpl.
  split; [apply filter_length_le|].
  destruct (sidebar_rows _ _ _ H) as [Hc _]. rewrite Hc.
  split; intros A.
  - rewrite filter_keeps_all; [reflexivity|].
    intros r Hr. apply (sidebar_view_In _ _ _ H) in Hr.
    destruct Hr as (_ & _ & _ & _ & _ & Hr). unfold holds in Hr.
    rewrite A in Hr. rewrite Hr. reflexivity.
  - rewrite filter_keeps_none; [reflexivity|].
    intros r Hr. apply (sidebar_view_In _ _ _ H) in Hr.
    destruct Hr as (_ & _ & _ & _ & _ & Hr). unfold holds in Hr.
    rewrite A in Hr. rewrite Hr. reflexivity.
Qed.

Lemma active_metric_witness :
  sidebar (mkPicks 0 0 0 0 1) ex_scenario = Ok ex_scenario_yes /\
  active_count (view ex_scenario_yes) = total_assets (view ex_scenario_yes).
Proof.
  split; [reflexivity|].
  apply (active_metric_follows_selector (mkPicks 0 0 0 0 1) ex_scenario
           ex_scenario_yes eq_refl).
  reflexivity.
Defined.

(** ** Sorting and the most frequent groups *)

Section SortBySorted.
Context {A : Type} (leb : A -> A -> bool).
Hypothesis leb_total : forall a b, leb a b = true \/ leb b a = true.
Hypothesis leb_trans :
  forall a b c, leb a b = true -> leb b c = true -> leb a c = true.

Lemma insert_by_sorted (x : A) (l : list A) :
  StronglySorted (fun a b => leb a b = true) l ->
  StronglySorted (fun a b => leb a b = true) (insert_by leb x l).
Proof.
  induction l as [|y l IH]; simpl; intros Hs.
  - constructor; constructor.
  - apply StronglySorted_inv in Hs as [Hs Hy].
    destruct (leb x y) eqn:E.
    + constructor; [constructor; assumption|].
      constructor; [exact E|].
      eapply Forall_impl; [|exact Hy]. intros a Ha.
      eapply leb_trans; eassumption.
    + constructor; [apply IH, Hs|].
      apply Forall_forall. intros a Ha.
      apply (Permutation_in _ (insert_by_perm leb x l)) in Ha.
      destruct Ha as [<- | Ha].
      * destruct (leb_total x y); congruence.
      * rewrite Forall_forall in Hy. apply Hy, Ha.
Qed.

Lemma sort_by_sorted (l : list A) :
  StronglySorted (fun a b => leb a b = true) (sort_by leb l).
Proof.
  induction l as [|x l IH]; simpl; [constructor|].
  apply insert_by_sorted, IH.
Qed.

End SortBySorted.

Lemma StronglySorted_firstn {A : Type} (R : A -> A -> Prop) (n : nat)
  (l : list A) :
  StronglySorted R l -> StronglySorted R (firstn n l).
Proof.
  revert n. induction l as [|x l IH]; intros [|n] Hs; simpl;
    try constructor.
  - apply IH. apply StronglySorted_inv in Hs. tauto.
  - apply StronglySorted_inv in Hs as [_ Hx].
    apply Forall_forall. intros a Ha.
    rewrite Forall_forall in Hx. apply Hx.
    rewrite <- (firstn_skipn n l). apply in_or_app. auto.
Qed.

Lemma StronglySorted_firstn_skipn {A : Type} (R : A -> A -> Prop) (n : nat)
  (l : list A) :
  StronglySorted R l ->
  forall x y, In x (firstn n l) -> In y (skipn n l) -> R x y.
Proof.
  revert n. induction l as [|a l IH]; intros [|n] Hs x y; simpl;
    try contradiction.
  apply StronglySorted_inv in Hs as [Hs Ha].
  intros [<- | Hx] Hy.
  - rewrite Forall_forall in Ha. apply Ha.
    rewrite <- (firstn_skipn n l). apply in_or_app. auto.
  - eapply IH; eassumption.
Qed.

Lemma StronglySorted_weaken {A : Type} (R R' : A -> A -> Prop) (l : list A) :
  (forall a b, R a b -> R' a b) ->
  StronglySorted R l -> StronglySorted R' l.
Proof.
  intros HR. induction 1 as [|a l Hs IH Ha]; constructor; [exact IH|].
  eapply Forall_impl; [|exact Ha]. intros b. apply HR.
Qed.

Lemma value_counts_descending (s : list cell) : descending (value_counts s).
Proof.
  unfold descending, value_counts.
  eapply StronglySorted_weaken.
  2: { apply (sort_by_sorted (fun a b : cell * nat => Nat.leb (snd b) (snd a))).
       - intros a b. rewrite !Nat.leb_le. lia.
       - intros a b c. rewrite !Nat.leb_le. lia. }
  intros a b. rewrite Nat.leb_le. auto.
Qed.

Lemma value_counts_perm (s : list cell) :
  Permutation (value_counts s)
              (map (fun k => (k, count k s)) (unique (dropna s))).
Proof. apply sort_by_perm. Qed.

Lemma value_counts_In (s : list cell) (k : cell) (c : nat) :
  In (k, c) (value_counts s) <->
  isna k = false /\ In k s /\ c = count k s.
Proof.
  split.
  - intros H. apply (Permutation_in _ (value_counts_perm s)) in H.
    apply in_map_iff in H as (k' & E & Hk). injection E as -> <-.
    apply unique_dropna_In in Hk. tauto.
  - intros (Hna & Hin & ->).
    apply (Permutation_in _ (Permutation_sym (value_counts_perm s))).
    apply in_map_iff. exists k. split; [reflexivity|].
    apply unique_dropna_In. tauto.
Qed.

Lemma value_counts_keys_NoDup (s : list cell) :
  NoDup (map fst (value_counts s)).
Proof.
  eapply Permutation_NoDup.
  - symmetry. apply Permutation_map, value_counts_perm.
  - rewrite map_map. simpl. rewrite map_id. apply unique_dropna_NoDup.
Qed.

Lemma count_positive (k : cell) (s : list cell) :
  isna k = false -> In k s -> 1 <= count k s.
Proof.
  intros Hk. induction s as [|x s IH]; simpl; intros Hin; [contradiction|].
  rewrite count_cons. destruct Hin as [-> | Hin].
  - rewrite (cell_eqb_refl k Hk). lia.
  - specialize (IH Hin). lia.
Qed.

Lemma NoDup_firstn_of {A : Type} (n : nat) (l : list A) :
  NoDup l -> NoDup (firstn n l).
Proof.
  revert n. induction l as [|x l IH]; intros [|n] H; simpl;
    try constructor.
  - inversion H; subst. intros Hin. apply H2.
    rewrite <- (firstn_skipn n l). apply in_or_app. auto.
  - inversion H; subst. apply IH. assumption.
Qed.

Lemma In_firstn {A : Type} (n : nat) (l : list A) (x : A) :
  In x (firstn n l) -> In x l.
Proof.
  intros H. rewrite <- (firstn_skipn n l). apply in_or_app. auto.
Qed.

(** The head of [value_counts] holds the most frequent values. *)
Lemma head_value_counts (n : nat) (s : list cell) :
  most_frequent n s (firstn n (value_counts s)).
Proof.
  unfold most_frequent.
  split; [rewrite length_firstn; lia|].
  split; [apply StronglySorted_firstn, value_counts_descending|].
  split.
  { rewrite <- firstn_map. apply NoDup_firstn_of, value_counts_keys_NoDup. }
  split.
  - intros k c H. apply In_firstn, value_counts_In in H.
    destruct H as (Hna & Hin & ->).
    repeat split; try assumption. apply count_positive; assumption.
  - intros k' Hna Hin Hout.
    assert (In (k', count k' s) (skipn n (value_counts s))) as Hskip.
    { assert (In (k', count k' s) (value_counts s)) as Hvc
        by (apply value_counts_In; auto).
      rewrite <- (firstn_skipn n (value_counts s)) in Hvc.
      apply in_app_or in Hvc as [Hvc | Hvc]; [|exact Hvc].
      exfalso. apply Hout. apply in_map_iff. exists (k', count k' s). auto. }
    split.
    + rewrite length_firstn.
      destruct (Nat.le_gt_cases (List.length (value_counts s)) n) as [Hle | Hgt];
        [|lia].
      rewrite (skipn_all2 _ Hle) in Hskip. contradiction.
    + intros k c Hkc.
      apply (StronglySorted_firstn_skipn _ n _ (value_counts_descending s)
               (k, c) (k', count k' s) Hkc Hskip).
Qed.

(** X6.  The Overview charts show the ten most frequent Buildings and the
    ten most frequent Room Names of the view (all of them when there are
    fewer), most frequent first and each with the number of rows that hold
    it; a value that is left out is no more frequent than any value
    shown. *)
Theorem overview_shows_most_frequent (df : DataFrame) :
  (forall shown, overview_building_counts df = Some shown ->
                 most_frequent 10 (column "Building" df) shown) /\
  (forall shown, overview_room_counts df = Some shown ->
                 most_frequent 10 (column "Room Name" df) shown).
Proof.
  unfold overview_building_counts, overview_room_counts.
  split; intros shown.
  - destruct (has_column "Building" df); [|discriminate].
    intros H. injection H as <-. apply head_value_counts.
  - destruct (has_column "Room Name" df); [|discriminate].
    intros H. injection H as <-. apply head_value_counts.
Qed.

Lemma overview_witness :
  overview_building_counts ex_assets
  = Some [(Str "A", 2); (Str "B", 1); (Str "C", 1)] /\
  most_frequent 10 (column "Building" ex_assets)
                [(Str "A", 2); (Str "B", 1); (Str "C", 1)].
Proof.
  split; [reflexivity|].
  apply (overview_shows_most_frequent ex_assets). reflexivity.
Defined.

(** ** Buildings and Rooms metrics *)

Lemma groupby_size_keys (s : list cell) :
  Permutation (map fst (groupby_size s)) (unique (dropna s)).
Proof.
  unfold groupby_size. rewrite map_map. simpl. rewrite map_id.
  apply sort_by_perm.
Qed.

(** X7.  The Buildings metric is the number of groups of the Location
    panel's per-Building table, whose keys are the distinct non-missing
    Buildings of the view; the Overview chart has that many bars, up to
    ten. *)
Theorem buildings_metric_counts_groups (df : DataFrame) (n : nat) :
  m_buildings (metrics_row df) = Some n ->
  exists loc ov,
    location_building_df df = Some loc /\
    overview_building_counts df = Some ov /\
    List.length loc = n /\
    List.length ov = Nat.min 10 n /\
    NoDup (map fst loc) /\
    forall v, In v (map fst loc) <->
              isna v = false /\ In v (column "Building" df).
Proof.
  unfold metrics_row, location_building_df, overview_building_counts.
  cbn [m_buildings].
  destruct (has_column "Building" df); [|discriminate].
  intros H. injection H as <-.
  eexists. eexists. split; [reflexivity|]. split; [reflexivity|].
  unfold nunique, sort_values_desc.
  assert (Permutation
            (map fst (sort_by (fun a b : cell * nat => Nat.leb (snd b) (snd a))
                              (groupby_size (column "Building" df))))
            (unique (dropna (column "Building" df)))) as Hp.
  { rewrite <- groupby_size_keys. apply Permutation_map, sort_by_perm. }
  split.
  { rewrite <- (Permutation_length Hp). symmetry. apply length_map. }
  split.
  { rewrite length_firstn, value_counts_length. reflexivity. }
  split.
  { eapply Permutation_NoDup; [symmetry; exact Hp|].
    apply unique_dropna_NoDup. }
  intros v. rewrite <- unique_dropna_In. split; apply Permutation_in;
    [|symmetry]; exact Hp.
Qed.

Lemma buildings_metric_witness :
  m_buildings (metrics_row ex_assets) = Some 3 /\
  exists loc, location_building_df ex_assets = Some loc /\
              List.length loc = 3.
Proof.
  split; [reflexivity|].
  destruct (buildings_metric_counts_groups ex_assets 3 eq_refl)
    as (loc & ov & H1 & _ & H2 & _).
  exists loc. auto.
Defined.

Lemma NoDup_all_equal {A : Type} (v : A) (l : list A) :
  NoDup l -> (forall x, In x l -> x = v) -> List.length l <= 1.
Proof.
  intros Hn Hall. destruct l as [|x [|y l]]; simpl; try lia.
  exfalso. inversion Hn as [|? ? Hx _]; subst. apply Hx.
  rewrite (Hall x), (Hall y) by (simpl; auto). left; reflexivity.
Qed.

Lemma has_column_same_columns (c : string) (d d' : DataFrame) :
  columns d' = columns d -> has_column c d' = has_column c d.
Proof. unfold has_column. intros ->. reflexivity. Qed.

(** The values of a column to which a selection was applied. *)
Lemma nunique_of_selected (c : string) (v : cell) (d : DataFrame) :
  isna v = false ->
  (forall r, In r (rows d) -> cell_at (columns d) c r = v) ->
  nunique (column c d) = if empty d then 0 else 1.
Proof.
  intros Hv Hall. unfold nunique.
  destruct (empty d) eqn:E.
  - unfold empty in E. unfold column.
    destruct (rows d); [reflexivity | discriminate].
  - apply empty_false_iff in E as [r Hr].
    assert (In v (unique (dropna (column c d)))) as Hin.
    { apply unique_dropna_In. split; [exact Hv|].
      apply column_In. exists r. auto. }
    assert (List.length (unique (dropna (column c d))) <= 1) as Hle.
    { apply (NoDup_all_equal v); [apply unique_dropna_NoDup|].
      intros x Hx. apply unique_dropna_In in Hx as [_ Hx].
      apply column_In in Hx as (r' & Hr' & <-). apply Hall, Hr'. }
    destruct (unique (dropna (column c d))); simpl in *; [contradiction|lia].
Qed.

Lemma applied_notna (c : string) (d : DataFrame) (s : selector) (v : cell) :
  options_of_column c d (sel_options s) ->
  In (sel_value s) (sel_options s) ->
  applied (Some s) = Some v -> isna v = false.
Proof.
  intros (l & Hl & _ & Hmem) Hin A.
  apply applied_Some in A as [<- Hall].
  rewrite Hl in Hin. destruct Hin as [E | Hin].
  - rewrite <- E in Hall. discriminate.
  - apply Hmem in Hin. tauto.
Qed.

(** X8.  Once a Building is selected the Buildings metric is 1, or 0 when
    the view has no rows; likewise the Rooms metric once a Room is
    selected. *)
Theorem metric_of_selected_column (p : picks) (df : DataFrame)
  (st : sidebar_state) :
  sidebar p df = Ok st ->
  (forall v, applied (building st) = Some v ->
             m_buildings (metrics_row (view st))
             = Some (if empty (view st) then 0 else 1)) /\
  (forall v, applied (room st) = Some v ->
             m_rooms (metrics_row (view st))
             = Some (if empty (view st) then 0 else 1)).
Proof.
  intros H.
  destruct (sidebar_inv _ _ _ H)
    as (d1 & d2 & d3 & d4 & H1 & H2 & H3 & H4 & H5).
  destruct (sidebar_chain _ _ _ H)
    as (e1 & e2 & e3 & e4 & _ & _ & _ & _).
  destruct (sidebar_rows _ _ _ H) as [Hc _].
  pose proof (categorical_filter_spec _ _ _ _ _ H1) as ([C1 _] & _ & _).
  pose proof (categorical_filter_spec _ _ _ _ _ H2) as ([C2 _] & _ & O2).
  pose proof (categorical_filter_spec _ _ _ _ _ H3) as (_ & _ & O3).
  rewrite C1 in C2.
  unfold metrics_row; cbn [m_buildings m_rooms]. split; intros v A.
  - destruct (building st) as [s|] eqn:E; [|discriminate].
    assert (has_column "Building" (view st) = true) as Hb.
    { rewrite (has_column_same_columns _ df) by exact Hc.
      rewrite <- (has_column_same_columns _ df d1) by exact C1.
      destruct (has_column "Building" d1) eqn:Hd; [reflexivity|].
      apply (selector_shown_iff_column _ _ _ _ _ H2) in Hd. discriminate. }
    rewrite Hb. f_equal.
    apply (nunique_of_selected _ v).
    + apply (applied_notna "Building" d1 s v (O2 s eq_refl)); [|exact A].
      apply categorical_filter_value in H2. tauto.
    + intros r Hr. apply (sidebar_view_In _ _ _ H) in Hr.
      destruct Hr as (_ & _ & Hr & _). unfold holds in Hr.
      rewrite E, A in Hr. rewrite Hc. exact Hr.
  - destruct (room st) as [s|] eqn:E; [|discriminate].
    assert (has_column "Room Name" (view st) = true) as Hb.
    { rewrite (has_column_same_columns _ df) by exact Hc.
      rewrite <- (has_column_same_columns _ df d2) by exact C2.
      destruct (has_column "Room Name" d2) eqn:Hd; [reflexivity|].
      apply (selector_shown_iff_column _ _ _ _ _ H3) in Hd. discriminate. }
    rewrite Hb. f_equal.
    apply (nunique_of_selected _ v).
    + apply (applied_notna "Room Name" d2 s v (O3 s eq_refl)); [|exact A].
      apply categorical_filter_value in H3. tauto.
    + intros r Hr. apply (sidebar_view_In _ _ _ H) in Hr.
      destruct Hr as (_ & _ & _ & Hr & _). unfold holds in Hr.
      rewrite E, A in Hr. rewrite Hc. exact Hr.
Qed.

Lemma metric_of_selected_witness :
  sidebar (mkPicks 0 1 0 0 0) ex_scenario = Ok ex_scenario_A /\
  m_buildings (metrics_row (view ex_scenario_A))
  = Some (if empty (view ex_scenario_A) then 0 else 1).
Proof.
  split; [reflexivity|].
  apply (metric_of_selected_column (mkPicks 0 1 0 0 0) ex_scenario
           ex_scenario_A eq_refl) with (v := Str "A").
  reflexivity.
Defined.

(** ** Timeline: chronological order *)

Lemma string_compare_le_trans (a b c : string) :
  String.compare a b <> Gt -> String.compare b c <> Gt ->
  String.compare a c <> Gt.
Proof.
  intros Hab Hbc Hac.
  assert (String.compare c a = Lt) as Hca
    by (rewrite String.compare_antisym, Hac; reflexivity).
  destruct (String.compare a b) eqn:E1; [| |congruence].
  - apply String.compare_eq_iff in E1. subst. congruence.
  - destruct (String.compare b c) eqn:E2; [| |congruence].
    + apply String.compare_eq_iff in E2. subst. congruence.
    + pose proof (string_compare_lt_trans _ _ _ E1 E2). congruence.
Qed.

Lemma date_compare_le_iff (a b : date) :
  date_compare a b <> Gt <->
  year a < year b \/
  (year a = year b /\
   (month a < month b \/ (month a = month b /\ day a <= day b))).
Proof.
  unfold date_compare.
  destruct (Nat.compare_spec (year a) (year b));
    destruct (Nat.compare_spec (month a) (month b));
    destruct (Nat.compare_spec (day a) (day b));
    split; intros; try congruence; try lia.
Qed.

Lemma not_Gt_true (c : comparison) :
  (match c with Gt => false | _ => true end) = true <-> c <> Gt.
Proof. destruct c; split; congruence. Qed.

Lemma key_leb_total (a b : cell) : key_leb a b = true \/ key_leb b a = true.
Proof.
  unfold key_leb. destruct a, b; simpl; auto.
  - rewrite (String.compare_antisym s0 s).
    destruct (String.compare s s0); simpl; auto.
  - rewrite (Z.compare_antisym z z0).
    destruct (Z.compare z z0); simpl; auto.
  - rewrite !not_Gt_true, !date_compare_le_iff. lia.
Qed.

Lemma key_leb_trans (a b c : cell) :
  key_leb a b = true -> key_leb b c = true -> key_leb a c = true.
Proof.
  unfold key_leb.
  destruct a, b; simpl; try discriminate; try reflexivity;
    destruct c; simpl; try discriminate; try reflexivity;
    rewrite !not_Gt_true.
  - apply string_compare_le_trans.
  - rewrite !Z.compare_gt_iff. lia.
  - rewrite !date_compare_le_iff. lia.
Qed.

Lemma key_leb_dates_lt (d e : date) :
  key_leb (Date d) (Date e) = true -> Date d <> Date e ->
  cell_lt (Date d) (Date e).
Proof.
  unfold key_leb, cell_lt. simpl. intros H Hne.
  destruct (date_compare d e) eqn:E; [|reflexivity|discriminate].
  apply date_compare_eq in E. congruence.
Qed.

(** Groups sorted by key, with distinct date keys, are in chronological
    order. *)
Lemma sorted_dates_chronological (g : list (cell * nat)) :
  StronglySorted (fun a b => key_leb (fst a) (fst b) = true) g ->
  NoDup (map fst g) ->
  (forall k, In k (map fst g) -> exists d, k = Date d) ->
  chronological g.
Proof.
  unfold chronological.
  induction 1 as [|a g Hs IH Ha]; simpl; intros Hn Hd; constructor.
  - inversion Hn; subst. apply IH; [assumption|]. intros k Hk. apply Hd. auto.
  - inversion Hn as [|? ? Hnotin _]; subst.
    apply Forall_forall. intros b Hb.
    rewrite Forall_forall in Ha.
    destruct (Hd (fst a)) as [d Ed]; [auto|].
    destruct (Hd (fst b)) as [e Ee]; [right; apply in_map; exact Hb|].
    rewrite Ed, Ee. apply key_leb_dates_lt.
    + rewrite <- Ed, <- Ee. apply Ha, Hb.
    + rewrite <- Ed, <- Ee. intros E. apply Hnotin. rewrite E.
      apply in_map, Hb.
Qed.

(** The daily chart of a list of dates. *)
Lemma daily_chart (dates : list cell) :
  (forall c, In c dates -> exists d, c = Date d) ->
  let chart := sort_by (fun a b : cell * nat => key_leb (fst a) (fst b))
                       (groupby_size (map dt_date dates)) in
  chronological chart /\
  total chart = List.length dates /\
  forall k n, In (k, n) chart <->
              In k dates /\ n = count k dates.
Proof.
  intros Hd chart.
  assert (map dt_date dates = dates) as Hid.
  { clear chart. induction dates as [|c l IH]; simpl; [reflexivity|].
    destruct (Hd c) as [d ->]; [left; reflexivity|]. simpl.
    rewrite IH; [reflexivity|]. intros x Hx. apply Hd. right; exact Hx. }
  assert (Permutation chart (groupby_size dates)) as Hp.
  { unfold chart. rewrite Hid. apply sort_by_perm. }
  assert (forall k, In k dates -> isna k = false) as Hna.
  { intros k Hk. destruct (Hd k Hk) as [d ->]. reflexivity. }
  split; [|split].
  - apply sorted_dates_chronological.
    + unfold chart.
      apply (sort_by_sorted (fun a b : cell * nat => key_leb (fst a) (fst b))).
      * intros a b. apply key_leb_total.
      * intros a b c. apply key_leb_trans.
    + eapply Permutation_NoDup.
      * symmetry. etransitivity; [apply Permutation_map, Hp|].
        apply groupby_size_keys.
      * apply unique_dropna_NoDup.
    + intros k Hk.
      apply (Permutation_in _ (Permutation_map fst Hp)) in Hk.
      apply (Permutation_in _ (groupby_size_keys dates)) in Hk.
      apply unique_dropna_In in Hk. apply Hd. tauto.
  - rewrite (total_perm _ _ Hp), total_groupby_size.
    rewrite <- (map_id dates) at 1. apply dropna_map_length.
    intros c Hc. apply Hna, Hc.
  - intros k n. split.
    + intros H. apply (Permutation_in _ Hp) in H.
      unfold groupby_size in H. apply in_map_iff in H as (k' & E & Hk).
      injection E as -> <-.
      apply (Permutation_in _ (sort_by_perm _ _)) in Hk.
      apply unique_dropna_In in Hk. tauto.
    + intros [Hin ->].
      apply (Permutation_in _ (Permutation_sym Hp)).
      unfold groupby_size. apply in_map_iff. exists k.
      split; [reflexivity|].
      apply (Permutation_in _ (Permutation_sym (sort_by_perm _ _))).
      apply unique_dropna_In. split; [apply Hna, Hin | exact Hin].
Qed.

(** X9.  The daily chart of Date Added has one point per day on which an
    asset was added, in chronological order, and each point counts the rows
    added on that day. *)
Theorem daily_additions_chronological (parse : cell -> option date)
  (df : DataFrame) (t : timeline) :
  snd (date_added_block parse df) = Some t ->
  let dates := dropna (map (to_datetime parse) (column "Date Added" df)) in
  chronological (daily_additions t) /\
  forall k n, In (k, n) (daily_additions t) <->
              In k dates /\ n = count k dates.
Proof.
  intros H dates.
  destruct (date_added_block_charts _ _ _ H) as [-> _].
  destruct (daily_chart dates (to_datetime_dates parse _)) as (Hc & _ & Hm).
  split; assumption.
Qed.

Lemma daily_additions_witness :
  snd (date_added_block no_date ex_dated) = Some ex_timeline /\
  chronological (daily_additions ex_timeline).
Proof.
  split; [reflexivity|].
  apply (daily_additions_chronological no_date ex_dated ex_timeline).
  reflexivity.
Defined.

(** ** Timeline: the Last Updated chart *)

(** X10.  The Last Updated block leaves in the table what
    [last_updated_block] says; when its chart is drawn it has one point per
    day, in chronological order, and the points add up to the number of rows
    whose Last Updated is read as a date, which is then positive. *)
Theorem last_updated_chart_spec (parse : cell -> option date)
  (df : DataFrame) :
  fst (last_updated_chart parse df) = last_updated_block parse df /\
  forall g, snd (last_updated_chart parse df) = Some g ->
            chronological g /\
            total g = parsable_dates parse (column "Last Updated" df) /\
            0 < total g.
Proof.
  unfold last_updated_chart, last_updated_block, coerce_column.
  destruct (has_column "Last Updated" df); [|split; [reflexivity|discriminate]].
  set (df1 := assign "Last Updated" _ df).
  set (upd := dropna_subset "Last Updated" df1).
  assert (column "Last Updated" upd
          = dropna (map (to_datetime parse) (column "Last Updated" df))) as E.
  { unfold upd. rewrite column_dropna_subset. unfold df1.
    rewrite column_assign_same; [reflexivity|].
    rewrite length_map. apply column_length. }
  destruct (empty upd) eqn:Hemp; simpl; [split; [reflexivity|discriminate]|].
  split; [reflexivity|]. intros g H. injection H as <-.
  rewrite column_assign_same
    by (rewrite length_map; apply column_length).
  rewrite E.
  destruct (daily_chart _ (to_datetime_dates parse (column "Last Updated" df)))
    as (Hc & Ht & _).
  split; [exact Hc|]. split; [exact Ht|]. rewrite Ht, <- E, column_length.
  apply empty_false_iff in Hemp as [r Hr].
  destruct (rows upd); [contradiction | simpl; lia].
Qed.

Lemma last_updated_chart_witness :
  snd (last_updated_chart ex_parse_date ex_raw)
  = Some [(Date (mkDate 2024 3 2), 1)] /\
  chronological [(Date (mkDate 2024 3 2), 1)].
Proof.
  split; [reflexivity|].
  apply (last_updated_chart_spec ex_parse_date ex_raw). reflexivity.
Defined.

(** ** The loader *)

Lemma coerce_column_same (c : string) (f : cell -> cell) (df : DataFrame) :
  has_column c df = true ->
  column c (coerce_column c f df) = map f (column c df).
Proof.
  intros H. unfold coerce_column. rewrite H.
  apply column_assign_same. rewrite length_map. apply column_length.
Qed.

Lemma coerce_column_other (c c' : string) (f : cell -> cell)
  (df : DataFrame) :
  c <> c' -> column c (coerce_column c' f df) = column c df.
Proof.
  intros H. unfold coerce_column. destruct (has_column c' df); [|reflexivity].
  apply column_assign_other; [exact H|].
  rewrite length_map. apply column_length.
Qed.

Lemma has_column_coerce (c c' : string) (f : cell -> cell) (df : DataFrame) :
  has_column c (coerce_column c' f df) = has_column c df.
Proof.
  apply has_column_same_columns. apply coerce_column_same_frame.
Qed.

Lemma fold_coerce_same_frame (f : cell -> cell) (cs : list string) :
  forall df,
    same_frame df (fold_left (fun d col => coerce_column col f d) cs df).
Proof.
  induction cs as [|c cs IH]; simpl; intros df; [apply same_frame_refl|].
  eapply same_frame_trans; [apply coerce_column_same_frame | apply IH].
Qed.

Lemma fold_coerce_other (f : cell -> cell) (c : string) (cs : list string) :
  ~ In c cs ->
  forall df,
    column c (fold_left (fun d col => coerce_column col f d) cs df)
    = column c df.
Proof.
  induction cs as [|c' cs IH]; simpl; intros Hn df; [reflexivity|].
  rewrite IH by tauto. apply coerce_column_other. intros ->. tauto.
Qed.

Lemma fold_coerce_member (f : cell -> cell) (c : string) (cs : list string) :
  NoDup cs -> In c cs ->
  forall df,
    has_column c df = true ->
    column c (fold_left (fun d col => coerce_column col f d) cs df)
    = map f (column c df).
Proof.
  induction cs as [|c' cs IH]; simpl; intros Hn Hin df Hc; [contradiction|].
  inversion Hn as [|? ? Hnotin Hn']; subst.
  destruct Hin as [-> | Hin].
  - rewrite fold_coerce_other by exact Hnotin.
    apply coerce_column_same, Hc.
  - rewrite IH; [|assumption|assumption|rewrite has_column_coerce; exact Hc].
    rewrite coerce_column_other; [reflexivity|].
    intros ->. contradiction.
Qed.

Lemma date_columns_NoDup : NoDup date_columns.
Proof.
  unfold date_columns.
  repeat (constructor; [simpl; intuition discriminate|]). constructor.
Qed.

(** X11.  The loader keeps the columns and the index labels of the table
    that was read, leaves every column outside the date list as it was read,
    and turns each value of a date column into a date, or into NaT when it
    is not read as one; a failed read gives no table. *)
Theorem load_data_coerces_dates (parse : cell -> option date)
  (df : DataFrame) :
  load_data parse None = None /\
  exists loaded,
    load_data parse (Some df) = Some loaded /\
    same_frame df loaded /\
    (forall c, ~ In c date_columns -> column c loaded = column c df) /\
    (forall c, In c date_columns -> has_column c df = true ->
               column c loaded = map (to_datetime parse) (column c df)) /\
    (forall c v, In c date_columns -> has_column c df = true ->
                 In v (column c loaded) -> v = NaT \/ exists d, v = Date d).
Proof.
  split; [reflexivity|]. eexists. split; [reflexivity|].
  split; [apply fold_coerce_same_frame|].
  split; [intros c Hc; apply fold_coerce_other, Hc|].
  assert (forall c, In c date_columns -> has_column c df = true ->
            column c (fold_left
                        (fun d col => coerce_column col (to_datetime parse) d)
                        date_columns df)
            = map (to_datetime parse) (column c df)) as Hm.
  { intros c Hc Hh.
    apply fold_coerce_member; [apply date_columns_NoDup | exact Hc | exact Hh]. }
  split; [exact Hm|].
  intros c v Hc Hh Hv. rewrite (Hm c Hc Hh) in Hv.
  apply in_map_iff in Hv as (x & <- & _).
  unfold to_datetime. destruct x; eauto; destruct (parse _); eauto.
Qed.

Lemma load_data_witness :
  load_data ex_parse_date (Some ex_raw) = Some ex_loaded /\
  column "Date Added" ex_loaded
  = map (to_datetime ex_parse_date) (column "Date Added" ex_raw).
Proof.
  split; [reflexivity|].
  destruct (load_data_coerces_dates ex_parse_date ex_raw)
    as (_ & loaded & H & _ & _ & Hm & _).
  injection H as <-.
  apply Hm; [simpl; auto | reflexivity].
Defined.

Lemma to_datetime_again (parse parse' : cell -> option date) (c : cell) :
  to_datetime parse' (to_datetime parse c) = to_datetime parse c.
Proof.
  unfold to_datetime. destruct c; try reflexivity;
    destruct (parse _); reflexivity.
Qed.

(** X12.  On a table returned by the loader the conversions repeated by the
    Timeline panel change nothing: after the Date Added block and after the
    Last Updated block every column reads as before, whatever the parser. *)
Theorem timeline_recoercion_is_noop (parse parse' : cell -> option date)
  (df loaded : DataFrame) :
  load_data parse (Some df) = Some loaded ->
  same_frame loaded (fst (date_added_block parse' loaded)) /\
  same_frame loaded (last_updated_block parse' loaded) /\
  forall c,
    column c (fst (date_added_block parse' loaded)) = column c loaded /\
    column c (last_updated_block parse' loaded) = column c loaded.
Proof.
  intros H.
  destruct (load_data_coerces_dates parse df)
    as (_ & loaded' & H' & [Hc _] & _ & Hm & _).
  rewrite H in H'. injection H' as <-.
  rewrite date_added_block_df. unfold last_updated_block.
  split; [apply coerce_column_same_frame|].
  split; [apply coerce_column_same_frame|].
  assert (forall c', In c' date_columns -> forall c,
            column c (coerce_column c' (to_datetime parse') loaded)
            = column c loaded) as Hfix.
  { intros c' Hin c.
    destruct (String.eqb c c') eqn:E.
    - apply String.eqb_eq in E. subst c'.
      destruct (has_column c loaded) eqn:Hh.
      + rewrite coerce_column_same by exact Hh.
        rewrite (has_column_same_columns _ df loaded Hc) in Hh.
        rewrite (Hm c Hin Hh), map_map.
        apply map_ext. intros x. apply to_datetime_again.
      + unfold coerce_column. rewrite Hh. reflexivity.
    - apply coerce_column_other. apply String.eqb_neq, E. }
  intros c. split; apply Hfix; simpl; auto.
Qed.

Lemma timeline_recoercion_witness :
  load_data ex_parse_date (Some ex_raw) = Some ex_loaded /\
  column "Date Added" (fst (date_added_block no_date ex_loaded))
  = column "Date Added" ex_loaded.
Proof.
  split; [reflexivity|].
  apply (timeline_recoercion_is_noop ex_parse_date no_date ex_raw ex_loaded
           eq_refl).
Defined.

(** ** What the panels leave for the Data Table *)

Lemma depreciation_block_other (parse : cell -> option Z) (c : string)
  (df : DataFrame) :
  c <> "Depreciated Value" -> c <> "Amount Depreciated" ->
  column c (fst (depreciation_block parse df)) = column c df.
Proof.
  intros H1 H2. unfold depreciation_block.
  destruct (has_column "Depreciated Value" df); [|reflexivity].
  set (df1 := assign "Depreciated Value" _ df).
  assert (column c df1 = column c df) as E1.
  { unfold df1. apply column_assign_other; [exact H1|].
    rewrite length_map. apply column_length. }
  destruct (empty _); simpl; [exact E1|].
  destruct (has_column "Amount Depreciated" df1); simpl; [|exact E1].
  rewrite column_assign_other; [exact E1 | exact H2|].
  rewrite length_map. apply column_length.
Qed.

(** X13.  Between the sidebar and the Data Table the panels keep the columns
    and the index labels of the view and touch no column other than Date
    Added, Last Updated, Cost, Depreciated Value and Amount Depreciated; the
    Cost column, when present, reaches the Data Table converted to numbers,
    its other values replaced by the missing value. *)
Theorem panels_rewrite_only_coerced_columns
  (parse_date : cell -> option date) (parse_number : cell -> option Z)
  (df : DataFrame) :
  let tbl := before_data_table parse_date parse_number df in
  same_frame df tbl /\
  (forall c, ~ In c coerced_columns -> column c tbl = column c df) /\
  (has_column "Cost" df = true ->
   column "Cost" tbl = map (to_numeric parse_number) (column "Cost" df)).
Proof.
  intros tbl. split; [apply before_data_table_same_frame|].
  unfold tbl, before_data_table, last_updated_block, cost_block.
  rewrite date_added_block_df. split.
  - intros c Hc. simpl in Hc.
    rewrite depreciation_block_other by (intros ->; tauto).
    rewrite !coerce_column_other by (intros ->; tauto). reflexivity.
  - intros Hcost.
    rewrite depreciation_block_other by discriminate.
    rewrite coerce_column_same
      by (rewrite !has_column_coerce; exact Hcost).
    rewrite !coerce_column_other by discriminate. reflexivity.
Qed.

Lemma panels_rewrite_witness :
  has_column "Cost" ex_bad_cost = true /\
  column "Cost" (before_data_table no_date int_literal ex_bad_cost) = [NaN] /\
  column "Serial #" (before_data_table no_date int_literal ex_bad_cost)
  = column "Serial #" ex_bad_cost.
Proof.
  split; [reflexivity|].
  destruct (panels_rewrite_only_coerced_columns no_date int_literal
              ex_bad_cost) as (_ & Ho & Hc).
  split.
  - rewrite (Hc eq_refl). reflexivity.
  - apply Ho. simpl. intuition discriminate.
Defined.

(** ** The Depreciated Value metric *)



(** ** The Data Table panel *)

















(** X21.  The Date Added charts are drawn exactly when the table has a Date
    Added column in which at least one value is read as a date. *)
Theorem date_added_charts_drawn_iff (parse : cell -> option date)
  (df : DataFrame) :
  (exists t, snd (date_added_block parse df) = Some t) <->
  has_column "Date Added" df = true /\
  0 < parsable_dates parse (column "Date Added" df).
Proof.
  split.
  - intros [t H]. split.
    + unfold date_added_block in H.
      destruct (has_column "Date Added" df); [reflexivity | discriminate].
    + destruct (date_added_block_charts _ _ _ H) as [Hd _].
      unfold date_added_block in H.
      destruct (has_column "Date Added" df); [|discriminate].
      set (df1 := assign "Date Added" _ df) in H.
      destruct (empty (dropna_subset "Date Added" df1)) eqn:E;
        [discriminate|].
      apply empty_false_iff in E as [r Hr].
      assert (List.length (rows (dropna_subset "Date Added" df1))
              = parsable_dates parse (column "Date Added" df)) as El.
      { rewrite <- column_length with (c := "Date Added").
        rewrite column_dropna_subset. unfold df1.
        rewrite column_assign_same; [reflexivity|].
        rewrite length_map. apply column_length. }
      rewrite <- El.
      destruct (rows (dropna_subset "Date Added" df1));
        [contradiction | simpl; lia].
  - intros [Hc Hp]. apply date_added_block_drawn; assumption.
Qed.

Lemma date_added_charts_witness :
  (exists t, snd (date_added_block no_date ex_dated) = Some t) /\
  has_column "Date Added" ex_dated = true.
Proof.
  split; [exists ex_timeline; reflexivity|].
  apply (proj1 (date_added_charts_drawn_iff no_date ex_dated)).
  exists ex_timeline. reflexivity.
Defined.

(** ** Monthly bars against daily points *)

Lemma cell_eqb_sym (a b : cell) : cell_eqb a b = cell_eqb b a.
Proof.
  destruct a, b; simpl; try reflexivity.
  - apply String.eqb_sym.
  - apply Z.eqb_sym.
  - unfold date_eqb.
    rewrite (Nat.eqb_sym (year d)), (Nat.eqb_sym (month d)),
      (Nat.eqb_sym (day d)). reflexivity.
Qed.

Lemma count_filter_true (P : cell -> bool) (k : cell) (s : list cell) :
  P k = true -> count k (filter P s) = count k s.
Proof.
  intros Hk. induction s as [|x s IH]; simpl; [reflexivity|].
  rewrite count_cons. destruct (P x) eqn:Hx.
  - rewrite count_cons, IH. reflexivity.
  - rewrite IH. destruct (cell_eqb k x) eqn:E; [|reflexivity].
    apply cell_eqb_eq in E. congruence.
Qed.

Lemma count_filter_false (P : cell -> bool) (k : cell) (s : list cell) :
  P k = false -> count k (filter P s) = 0.
Proof.
  intros Hk. induction s as [|x s IH]; simpl; [reflexivity|].
  destruct (P x) eqn:Hx; [|exact IH].
  rewrite count_cons, IH. destruct (cell_eqb k x) eqn:E; [|reflexivity].
  apply cell_eqb_eq in E. congruence.
Qed.

(** The counts of the keys that satisfy [P] add up to the number of
    non-missing values that satisfy [P]. *)
Lemma total_counts_where (P : cell -> bool) (s ks : list cell) :
  NoDup ks ->
  (forall v, isna v = false -> In v s -> In v ks) ->
  total (filter (fun kv => P (fst kv)) (map (fun k => (k, count k s)) ks))
  = List.length (dropna (filter P s)).
Proof.
  intros Hn Hks.
  rewrite <- (total_counts (filter P s) ks Hn).
  - clear Hn Hks. induction ks as [|k ks IH]; simpl; [reflexivity|].
    destruct (P k) eqn:Hk; simpl.
    + rewrite IH, (count_filter_true P k s Hk). reflexivity.
    + rewrite IH, (count_filter_false P k s Hk). reflexivity.
  - intros v Hv Hin. apply filter_In in Hin. apply Hks; tauto.
Qed.

Lemma Permutation_filter_of {A : Type} (f : A -> bool) (l l' : list A) :
  Permutation l l' -> Permutation (filter f l) (filter f l').
Proof.
  induction 1 as [|x l l' Hp IH|x y l|l1 l2 l3 H1 IH1 H2 IH2]; simpl.
  - constructor.
  - destruct (f x); [constructor|]; exact IH.
  - destruct (f x), (f y); try reflexivity. apply perm_swap.
  - etransitivity; eassumption.
Qed.

Lemma count_map (f : cell -> cell) (m : cell) (s : list cell) :
  count m (map f s) = List.length (filter (fun x => cell_eqb (f x) m) s).
Proof.
  unfold count. induction s as [|x s IH]; simpl; [reflexivity|].
  rewrite (cell_eqb_sym m (f x)).
  destruct (cell_eqb (f x) m); simpl; rewrite IH; reflexivity.
Qed.

(** X22.  Each bar of the monthly chart is the sum of the points of the
    daily chart whose day falls in that month. *)
Theorem monthly_bar_sums_daily_points (parse : cell -> option date)
  (df : DataFrame) (t : timeline) :
  snd (date_added_block parse df) = Some t ->
  forall m n,
    In (m, n) (monthly_additions t) ->
    n = total (filter (fun kv => cell_eqb (year_month (fst kv)) m)
                      (daily_additions t)).
Proof.
  intros H m n Hin.
  destruct (date_added_block_charts _ _ _ H) as [Hd Hm].
  set (dates := dropna (map (to_datetime parse) (column "Date Added" df)))
    in *.
  assert (forall c, In c dates -> exists d, c = Date d) as Hdates
    by apply to_datetime_dates.
  assert (map dt_date dates = dates) as Hid.
  { clear - Hdates. induction dates as [|c l IH]; simpl; [reflexivity|].
    destruct (Hdates c) as [d ->]; [left; reflexivity|]. simpl.
    rewrite IH; [reflexivity|]. intros x Hx. apply Hdates. right; exact Hx. }
  assert (dropna dates = dates) as Hdrop.
  { apply dropna_all. apply forallb_forall. intros c Hc.
    destruct (Hdates c Hc) as [d ->]. reflexivity. }
  rewrite Hm in Hin. unfold groupby_size in Hin.
  apply in_map_iff in Hin as (m' & E & _). injection E as -> <-.
  rewrite count_map.
  rewrite Hd, Hid.
  rewrite (total_perm _ (filter (fun kv => cell_eqb (year_month (fst kv)) m)
                                (groupby_size dates))).
  2: { apply Permutation_filter_of, sort_by_perm. }
  unfold groupby_size.
  rewrite (total_counts_where (fun k => cell_eqb (year_month k) m)).
  - rewrite dropna_all; [reflexivity|].
    apply forallb_forall. intros c Hc. apply filter_In in Hc as [Hc _].
    destruct (Hdates c Hc) as [d ->]. reflexivity.
  - eapply Permutation_NoDup; [symmetry; apply sort_by_perm|].
    apply unique_dropna_NoDup.
  - intros v Hv Hc.
    apply (Permutation_in _ (Permutation_sym (sort_by_perm _ _))).
    apply unique_dropna_In. tauto.
Qed.

Lemma monthly_bar_witness :
  snd (date_added_block no_date ex_dated) = Some ex_timeline /\
  2 = total (filter (fun kv => cell_eqb (year_month (fst kv)) (Str "2024-01"))
                    (daily_additions ex_timeline)).
Proof.
  split; [reflexivity|].
  apply (monthly_bar_sums_daily_points no_date ex_dated ex_timeline eq_refl
           (Str "2024-01") 2).
  simpl. auto.
Defined.

(** ** Groups over any kind of key *)

Section GroupKeysFacts.
Context {K : Type} (eqb : K -> K -> bool) (valid : K -> bool).
Hypothesis eqb_eq : forall a b, eqb a b = true -> a = b.
Hypothesis eqb_refl : forall a, valid a = true -> eqb a a = true.
Hypothesis eqb_valid : forall a b, eqb a b = true -> valid b = true.

Lemma existsb_eqb_In (k : K) (l : list K) :
  valid k = true -> (existsb (eqb k) l = true <-> In k l).
Proof.
  intros Hk. rewrite existsb_exists. split.
  - intros [x [Hx E]]. apply eqb_eq in E. subst; assumption.
  - intros H. exists k. split; [assumption | apply eqb_refl, Hk].
Qed.

Lemma distinct_acc_In (l : list K) : forall seen v,
  Forall (fun k => valid k = true) l ->
  (In v (distinct_acc eqb seen l) <-> In v l /\ ~ In v seen).
Proof.
  induction l as [|c l IH]; intros seen v Hl; simpl; [tauto|].
  inversion Hl as [|? ? Hc Hl']; subst.
  destruct (existsb (eqb c) seen) eqn:E.
  - apply (existsb_eqb_In c seen Hc) in E.
    rewrite IH by assumption. split; [tauto|].
    intros [[-> | H] Hn]; [contradiction | tauto].
  - assert (~ In c seen) as Hn.
    { intros H. apply (existsb_eqb_In c seen Hc) in H. congruence. }
    simpl. rewrite IH by assumption. simpl. split.
    + intros [-> | [H1 H2]]; tauto.
    + intros [[-> | H1] H2]; [tauto|].
      destruct (existsb (eqb c) [v]) eqn:Ev.
      * simpl in Ev. rewrite orb_false_r in Ev. apply eqb_eq in Ev. tauto.
      * right. split; [assumption|]. intros [-> | H3]; [|contradiction].
        simpl in Ev. rewrite (eqb_refl v) in Ev; [discriminate|].
        rewrite Forall_forall in Hl'. apply Hl', H1.
Qed.

Lemma distinct_acc_NoDup (l : list K) : forall seen,
  Forall (fun k => valid k = true) l -> NoDup (distinct_acc eqb seen l).
Proof.
  induction l as [|c l IH]; intros seen Hl; simpl; [constructor|].
  inversion Hl as [|? ? Hc Hl']; subst.
  destruct (existsb (eqb c) seen); [apply IH; assumption|].
  constructor; [|apply IH; assumption].
  rewrite distinct_acc_In by assumption. simpl. tauto.
Qed.

Lemma occurrences_cons (k x : K) (s : list K) :
  occurrences eqb k (x :: s)
  = (if eqb k x then 1 else 0) + occurrences eqb k s.
Proof. unfold occurrences. simpl. destruct (eqb k x); reflexivity. Qed.

Lemma sum_counts_cons (x : K) (s ks : list K) :
  sum_counts (map (fun k => (k, occurrences eqb k (x :: s))) ks)
  = sum_counts (map (fun k => (k, if eqb k x then 1 else 0)) ks)
    + sum_counts (map (fun k => (k, occurrences eqb k s)) ks).
Proof.
  induction ks as [|k ks IH]; simpl; [reflexivity|].
  rewrite IH, occurrences_cons. lia.
Qed.

Lemma sum_indicator_absent (x : K) (ks : list K) :
  ~ In x ks ->
  sum_counts (map (fun k => (k, if eqb k x then 1 else 0)) ks) = 0.
Proof.
  induction ks as [|k ks IH]; simpl; intros H; [reflexivity|].
  rewrite IH by tauto.
  destruct (eqb k x) eqn:E; [|reflexivity].
  apply eqb_eq in E. tauto.
Qed.

Lemma sum_indicator_present (x : K) (ks : list K) :
  valid x = true -> NoDup ks -> In x ks ->
  sum_counts (map (fun k => (k, if eqb k x then 1 else 0)) ks) = 1.
Proof.
  intros Hx. induction ks as [|k ks IH]; simpl; intros Hn Hin;
    [contradiction|].
  inversion Hn as [|? ? Hk Hn']; subst.
  destruct Hin as [-> | Hin].
  - rewrite (eqb_refl x Hx), sum_indicator_absent by assumption.
    reflexivity.
  - rewrite IH by assumption.
    destruct (eqb k x) eqn:E; [|reflexivity].
    apply eqb_eq in E. subst. contradiction.
Qed.

Lemma sum_indicator_invalid (x : K) (ks : list K) :
  valid x = false ->
  sum_counts (map (fun k => (k, if eqb k x then 1 else 0)) ks) = 0.
Proof.
  intros Hx. induction ks as [|k ks IH]; simpl; [reflexivity|].
  rewrite IH.
  destruct (eqb k x) eqn:E; [|reflexivity].
  apply eqb_valid in E. congruence.
Qed.

Lemma sum_occurrences (s ks : list K) :
  NoDup ks ->
  (forall v, valid v = true -> In v s -> In v ks) ->
  sum_counts (map (fun k => (k, occurrences eqb k s)) ks)
  = List.length (filter valid s).
Proof.
  intros Hn. induction s as [|x s IH]; intros Hks.
  - clear Hn Hks. induction ks as [|k ks IHk]; simpl; [reflexivity|].
    exact IHk.
  - rewrite sum_counts_cons, IH by (intros; apply Hks; simpl; auto).
    simpl. destruct (valid x) eqn:Hx; simpl.
    + rewrite sum_indicator_present; auto. apply Hks; simpl; auto.
    + rewrite sum_indicator_invalid by assumption. reflexivity.
Qed.

Lemma occurrences_filter_true (P : K -> bool) (k : K) (s : list K) :
  P k = true -> occurrences eqb k (filter P s) = occurrences eqb k s.
Proof.
  intros Hk. induction s as [|x s IH]; simpl; [reflexivity|].
  rewrite occurrences_cons. destruct (P x) eqn:Hx.
  - rewrite occurrences_cons, IH. reflexivity.
  - rewrite IH. destruct (eqb k x) eqn:E; [|reflexivity].
    apply eqb_eq in E. congruence.
Qed.

Lemma occurrences_filter_false (P : K -> bool) (k : K) (s : list K) :
  P k = false -> occurrences eqb k (filter P s) = 0.
Proof.
  intros Hk. induction s as [|x s IH]; simpl; [reflexivity|].
  destruct (P x) eqn:Hx; [|exact IH].
  rewrite occurrences_cons, IH. destruct (eqb k x) eqn:E; [|reflexivity].
  apply eqb_eq in E. congruence.
Qed.

Lemma sum_occurrences_where (P : K -> bool) (s ks : list K) :
  NoDup ks ->
  (forall v, valid v = true -> In v s -> In v ks) ->
  sum_counts (filter (fun kv => P (fst kv))
                     (map (fun k => (k, occurrences eqb k s)) ks))
  = List.length (filter valid (filter P s)).
Proof.
  intros Hn Hks.
  rewrite <- (sum_occurrences (filter P s) ks Hn).
  - clear Hn Hks. induction ks as [|k ks IH]; simpl; [reflexivity|].
    destruct (P k) eqn:Hk; simpl.
    + rewrite IH, (occurrences_filter_true P k s Hk). reflexivity.
    + rewrite IH, (occurrences_filter_false P k s Hk). reflexivity.
  - intros v Hv Hin. apply filter_In in Hin. apply Hks; tauto.
Qed.

Lemma occurrences_positive (k : K) (s : list K) :
  valid k = true -> In k s -> 1 <= occurrences eqb k s.
Proof.
  intros Hk. induction s as [|x s IH]; simpl; intros Hin; [contradiction|].
  rewrite occurrences_cons. destruct Hin as [-> | Hin].
  - rewrite (eqb_refl k Hk). lia.
  - specialize (IH Hin). lia.
Qed.

End GroupKeysFacts.

Lemma sum_counts_perm {K : Type} (g g' : list (K * nat)) :
  Permutation g g' -> sum_counts g = sum_counts g'.
Proof. induction 1; simpl; lia. Qed.

Lemma sum_counts_firstn {K : Type} (n : nat) (g : list (K * nat)) :
  sum_counts (firstn n g) <= sum_counts g.
Proof.
  revert n. induction g as [|kv g IH]; intros [|n]; simpl; try lia.
  specialize (IH n). lia.
Qed.

Lemma pair_eqb_eq (a b : cell * cell) : pair_eqb a b = true -> a = b.
Proof.
  destruct a, b. unfold pair_eqb. simpl. intros H.
  apply andb_true_iff in H as [H1 H2].
  apply cell_eqb_eq in H1, H2. congruence.
Qed.

Lemma pair_eqb_refl (a : cell * cell) :
  pair_notna a = true -> pair_eqb a a = true.
Proof.
  unfold pair_notna, pair_eqb. intros H.
  apply andb_true_iff in H as [H1 H2]. apply negb_true_iff in H1, H2.
  rewrite !cell_eqb_refl by assumption. reflexivity.
Qed.

Lemma pair_eqb_notna (a b : cell * cell) :
  pair_eqb a b = true -> pair_notna b = true.
Proof.
  unfold pair_notna, pair_eqb. intros H.
  apply andb_true_iff in H as [H1 H2].
  apply cell_eqb_true_iff in H1 as [_ H1], H2 as [_ H2].
  rewrite H1, H2. reflexivity.
Qed.

(** ** Location panel: Building and Room Name *)

Lemma pair_valid_keys (s : list (cell * cell)) :
  Forall (fun k => pair_notna k = true) (filter pair_notna s).
Proof. apply Forall_forall. intros k H. apply filter_In in H. tauto. Qed.

Lemma groupby_pair_keys (s : list (cell * cell)) :
  Permutation (map fst (groupby_pair_size s))
              (distinct pair_eqb (filter pair_notna s)).
Proof.
  unfold groupby_pair_size. rewrite map_map. simpl. rewrite map_id.
  apply sort_by_perm.
Qed.

Lemma distinct_pairs_In (s : list (cell * cell)) (k : cell * cell) :
  In k (distinct pair_eqb (filter pair_notna s)) <->
  pair_notna k = true /\ In k s.
Proof.
  unfold distinct.
  rewrite (distinct_acc_In pair_eqb pair_notna pair_eqb_eq pair_eqb_refl)
    by apply pair_valid_keys.
  rewrite filter_In. simpl. tauto.
Qed.

Lemma distinct_pairs_NoDup (s : list (cell * cell)) :
  NoDup (distinct pair_eqb (filter pair_notna s)).
Proof.
  apply (distinct_acc_NoDup pair_eqb pair_notna pair_eqb_eq pair_eqb_refl).
  apply pair_valid_keys.
Qed.

Lemma groupby_pair_keys_cover (s : list (cell * cell)) :
  NoDup (sort_by pair_leb (distinct pair_eqb (filter pair_notna s))) /\
  forall v, pair_notna v = true -> In v s ->
            In v (sort_by pair_leb (distinct pair_eqb (filter pair_notna s))).
Proof.
  split.
  - eapply Permutation_NoDup; [symmetry; apply sort_by_perm|].
    apply distinct_pairs_NoDup.
  - intros v Hv Hin.
    apply (Permutation_in _ (Permutation_sym (sort_by_perm _ _))).
    apply distinct_pairs_In. tauto.
Qed.

Lemma sort_counts_desc_sorted {K : Type} (g : list (K * nat)) :
  StronglySorted (fun a b => snd b <= snd a) (sort_counts_desc g).
Proof.
  unfold sort_counts_desc. eapply StronglySorted_weaken.
  2: { apply (sort_by_sorted (fun a b : K * nat => Nat.leb (snd b) (snd a))).
       - intros a b. rewrite !Nat.leb_le. lia.
       - intros a b c. rewrite !Nat.leb_le. lia. }
  intros a b. rewrite Nat.leb_le. auto.
Qed.

Lemma building_room_length (df : DataFrame) :
  List.length (building_room df) = len df.
Proof.
  unfold building_room, len. rewrite length_combine, !column_length. lia.
Qed.

(** X23.  The Location Summary Table has one line per combination of
    Building and Room Name found in a row where neither is missing, with the
    number of such rows, most frequent first; its counts add up to the
    number of rows where neither is missing, hence to at most Total Assets.
    The Building -> Room chart is drawn from its first twenty lines. *)
Theorem location_summary_spec (df : DataFrame)
  (g : list ((cell * cell) * nat)) :
  location_summary df = Some g ->
  room_building df = Some (firstn 20 g) /\
  StronglySorted (fun a b => snd b <= snd a) g /\
  NoDup (map fst g) /\
  (forall k n, In (k, n) g <->
               pair_notna k = true /\ In k (building_room df) /\
               n = occurrences pair_eqb k (building_room df)) /\
  sum_counts g = List.length (filter pair_notna (building_room df)) /\
  sum_counts g <= total_assets df.
Proof.
  unfold location_summary, room_building.
  rewrite (andb_comm (has_column "Room Name" df)).
  destruct (has_column "Building" df && has_column "Room Name" df);
    [|discriminate].
  intros H. injection H as <-.
  set (s := building_room df).
  assert (Permutation (sort_counts_desc (groupby_pair_size s))
                      (groupby_pair_size s)) as Hp by apply sort_by_perm.
  destruct (groupby_pair_keys_cover s) as [Hn Hcov].
  assert (sum_counts (sort_counts_desc (groupby_pair_size s))
          = List.length (filter pair_notna s)) as Hsum.
  { rewrite (sum_counts_perm _ _ Hp). unfold groupby_pair_size.
    apply (sum_occurrences pair_eqb pair_notna pair_eqb_eq pair_eqb_refl
             pair_eqb_notna); assumption. }
  split; [reflexivity|].
  split; [apply sort_counts_desc_sorted|].
  split.
  { eapply Permutation_NoDup.
    - symmetry. etransitivity; [apply Permutation_map, Hp|].
      apply groupby_pair_keys.
    - apply distinct_pairs_NoDup. }
  split.
  { intros k n. split.
    - intros Hin. apply (Permutation_in _ Hp) in Hin.
      unfold groupby_pair_size in Hin.
      apply in_map_iff in Hin as (k' & E & Hk). injection E as -> <-.
      apply (Permutation_in _ (sort_by_perm _ _)) in Hk.
      apply distinct_pairs_In in Hk. tauto.
    - intros (Hv & Hin & ->).
      apply (Permutation_in _ (Permutation_sym Hp)).
      unfold groupby_pair_size. apply in_map_iff. exists k.
      split; [reflexivity|]. apply Hcov; assumption. }
  split; [exact Hsum|].
  rewrite Hsum. unfold total_assets. rewrite <- building_room_length.
  apply filter_length_le.
Qed.

Lemma location_summary_witness :
  location_summary ex_rooms
  = Some [((Str "A", Str "101"), 2); ((Str "B", Str "101"), 1)] /\
  sum_counts [((Str "A", Str "101"), 2); ((Str "B", Str "101"), 1)]
  <= total_assets ex_rooms.
Proof.
  split; [reflexivity|].
  apply (location_summary_spec ex_rooms
           [((Str "A", Str "101"), 2); ((Str "B", Str "101"), 1)]).
  reflexivity.
Defined.

Lemma filter_fst_combine {A B : Type} (f : A -> bool) (l : list A)
  (l' : list B) :
  List.length l = List.length l' ->
  List.length (filter (fun p => f (fst p)) (combine l l'))
  = List.length (filter f l).
Proof.
  revert l'. induction l as [|x l IH]; intros [|y l'] H; simpl in *;
    try discriminate; [reflexivity|].
  destruct (f x); simpl; rewrite IH by congruence; reflexivity.
Qed.

(** X24.  The lines of the Location Summary Table for one Building add up
    to at most that Building's count in the per-Building table, and to
    exactly that count when no row of the Building lacks a Room Name. *)
Theorem rooms_of_building_add_up (df : DataFrame)
  (g : list ((cell * cell) * nat)) (loc : list (cell * nat)) :
  location_summary df = Some g ->
  location_building_df df = Some loc ->
  forall b n,
    In (b, n) loc ->
    let lines := filter (fun kv => cell_eqb (fst (fst kv)) b) g in
    sum_counts lines <= n /\
    ((forall p, In p (building_room df) -> fst p = b ->
                isna (snd p) = false) ->
     sum_counts lines = n).
Proof.
  unfold location_summary, location_building_df.
  destruct (has_column "Building" df); [|discriminate]. simpl.
  destruct (has_column "Room Name" df); [|discriminate].
  intros Hg Hloc. injection Hg as <-. injection Hloc as <-.
  intros b n Hin.
  set (lines := filter (fun kv : cell * cell * nat =>
                          cell_eqb (fst (fst kv)) b) _).
  assert (n = count b (column "Building" df) /\ isna b = false) as [-> Hb].
  { unfold sort_values_desc in Hin.
    apply (Permutation_in _ (sort_by_perm _ _)) in Hin.
    unfold groupby_size in Hin.
    apply in_map_iff in Hin as (k & E & Hk). injection E as -> <-.
    apply (Permutation_in _ (sort_by_perm _ _)) in Hk.
    apply unique_dropna_In in Hk. tauto. }
  set (s := building_room df).
  set (Q := fun k : cell * cell => cell_eqb (fst k) b).
  destruct (groupby_pair_keys_cover s) as [Hn Hcov].
  assert (sum_counts lines = List.length (filter pair_notna (filter Q s)))
    as Hsum.
  { unfold lines.
    rewrite (sum_counts_perm _ (filter (fun kv => Q (fst kv))
                                       (groupby_pair_size s))).
    2: { apply Permutation_filter_of, sort_by_perm. }
    unfold groupby_pair_size.
    apply (sum_occurrences_where pair_eqb pair_notna pair_eqb_eq
             pair_eqb_refl pair_eqb_notna); assumption. }
  assert (List.length (filter Q s) = count b (column "Building" df)) as Hq.
  { unfold s, building_room, Q, count.
    rewrite (filter_fst_combine (fun x => cell_eqb x b))
      by (rewrite !column_length; reflexivity).
    f_equal. apply filter_ext. intros x. apply cell_eqb_sym. }
  rewrite Hsum, <- Hq. split; [apply filter_length_le|].
  intros Hrooms. rewrite filter_keeps_all; [reflexivity|].
  intros p Hp. apply filter_In in Hp as [Hp HQ]. unfold Q in HQ.
  apply cell_eqb_eq in HQ. unfold pair_notna.
  rewrite (Hrooms p Hp HQ), HQ, Hb. reflexivity.
Qed.

Lemma rooms_of_building_witness :
  location_summary ex_rooms
  = Some [((Str "A", Str "101"), 2); ((Str "B", Str "101"), 1)] /\
  location_building_df ex_rooms = Some [(Str "A", 3); (Str "B", 1)] /\
  sum_counts (filter (fun kv => cell_eqb (fst (fst kv)) (Str "A"))
                     [((Str "A", Str "101"), 2); ((Str "B", Str "101"), 1)])
  <= 3.
Proof.
  split; [reflexivity|]. split; [reflexivity|].
  apply (rooms_of_building_add_up ex_rooms
           [((Str "A", Str "101"), 2); ((Str "B", Str "101"), 1)]
           [(Str "A", 3); (Str "B", 1)] eq_refl eq_refl (Str "A") 3).
  left; reflexivity.
Defined.

(** ** The Active chart and the Active Assets metric *)

Lemma count_column (c : string) (v : cell) (df : DataFrame) :
  count v (column c df)
  = List.length (filter (fun r => cell_eqb (cell_at (columns df) c r) v)
                        (rows df)).
Proof.
  unfold count, column.
  induction (rows df) as [|r l IH]; cbn [map filter]; [reflexivity|].
  rewrite (cell_eqb_sym v).
  destruct (cell_eqb (cell_at (columns df) c r) v); cbn [List.length];
    rewrite IH; reflexivity.
Qed.

Lemma active_count_is_count (df : DataFrame) :
  active_count df = count (Str "Yes") (column "Active" df).
Proof. rewrite count_column. reflexivity. Qed.

(** X25.  The Active chart has one bar per non-missing value of the Active
    column, most frequent first; the bars add up to the number of rows whose
    Active value is not missing, and the bar "Yes" is as high as the Active
    Assets metric, which is zero when there is no such bar. *)
Theorem active_chart_matches_metric (df : DataFrame) (g : list (cell * nat)) :
  overview_active_counts df = Some g ->
  descending g /\
  total g = List.length (dropna (column "Active" df)) /\
  (forall n, In (Str "Yes", n) g -> n = active_count df) /\
  ((forall n, ~ In (Str "Yes", n) g) -> active_count df = 0).
Proof.
  unfold overview_active_counts.
  destruct (has_column "Active" df); [|discriminate].
  intros H. injection H as <-.
  split; [apply value_counts_descending|].
  split; [apply total_value_counts|].
  rewrite active_count_is_count. split.
  - intros n Hn. apply value_counts_In in Hn. tauto.
  - intros Hno.
    destruct (count (Str "Yes") (column "Active" df)) as [|k] eqn:E;
      [reflexivity|].
    exfalso. apply (Hno (S k)). apply value_counts_In.
    split; [reflexivity|]. split; [|symmetry; exact E].
    unfold count in E.
    destruct (filter (cell_eqb (Str "Yes")) (column "Active" df))
      as [|x l] eqn:F; [discriminate|].
    assert (In x (filter (cell_eqb (Str "Yes")) (column "Active" df))) as Hx
      by (rewrite F; left; reflexivity).
    apply filter_In in Hx as [Hx Hy]. apply cell_eqb_eq in Hy. subst x.
    exact Hx.
Qed.

Lemma active_chart_witness :
  overview_active_counts ex_scenario
  = Some [(Str "Yes", 2); (Str "No", 1)] /\
  2 = active_count ex_scenario.
Proof.
  split; [reflexivity|].
  apply (active_chart_matches_metric ex_scenario
           [(Str "Yes", 2); (Str "No", 1)] eq_refl).
  left; reflexivity.
Defined.

(** ** One cell per column, from the file to the Data Table *)

Lemma set_nth_length (i : nat) (v : cell) (l : list cell) :
  i < List.length l -> List.length (set_nth i v l) = List.length l.
Proof.
  revert l. induction i as [|i IH]; intros [|x l] H; simpl in *; try lia.
  rewrite IH by lia. reflexivity.
Qed.

Lemma assign_well_formed (c : string) (vals : list cell) (df : DataFrame) :
  well_formed df -> has_column c df = true ->
  well_formed (assign c vals df).
Proof.
  intros Hwf Hc. unfold has_column in Hc. unfold assign, well_formed.
  destruct (col_index c (columns df)) as [i|] eqn:E; [|discriminate].
  simpl. intros r Hr.
  apply in_map_iff in Hr as ([r0 v] & <- & Hin). simpl.
  apply in_combine_l in Hin.
  rewrite set_nth_length; [apply Hwf, Hin|].
  rewrite (Hwf r0 Hin). eapply col_index_lt, E.
Qed.

Lemma coerce_column_well_formed (c : string) (f : cell -> cell)
  (df : DataFrame) :
  well_formed df -> well_formed (coerce_column c f df).
Proof.
  intros Hwf. unfold coerce_column.
  destruct (has_column c df) eqn:E; [|exact Hwf].
  apply assign_well_formed; assumption.
Qed.

Lemma select_eq_well_formed (c : string) (v : cell) (df : DataFrame) :
  well_formed df -> well_formed (select_eq c v df).
Proof.
  intros Hwf r Hr. simpl in *. apply filter_In in Hr. apply Hwf. tauto.
Qed.

Lemma fold_coerce_well_formed (f : cell -> cell) (cs : list string) :
  forall df,
    well_formed df ->
    well_formed (fold_left (fun d col => coerce_column col f d) cs df).
Proof.
  induction cs as [|c cs IH]; simpl; intros df Hwf; [exact Hwf|].
  apply IH, coerce_column_well_formed, Hwf.
Qed.

(** X26.  Rows with one cell per column stay so: in the table returned by
    the loader, in the view left by the sidebar, and in the table that
    reaches the Data Table. *)
Theorem one_cell_per_column_is_kept (parse_date : cell -> option date)
  (parse_number : cell -> option Z) (df : DataFrame) :
  well_formed df ->
  (forall loaded, load_data parse_date (Some df) = Some loaded ->
                  well_formed loaded) /\
  (forall p st, sidebar p df = Ok st -> well_formed (view st)) /\
  well_formed (before_data_table parse_date parse_number df).
Proof.
  intros Hwf. split; [|split].
  - intros loaded H. injection H as <-.
    apply (fold_coerce_well_formed (to_datetime parse_date) date_columns).
    exact Hwf.
  - intros p st H. destruct (sidebar_rows _ _ _ H) as [Hc Hr].
    intros r Hin. rewrite Hr in Hin. apply filter_In in Hin as [Hin _].
    rewrite Hc. apply Hwf, Hin.
  - unfold before_data_table, last_updated_block, cost_block.
    rewrite date_added_block_df.
    set (d := coerce_column "Cost" _ _).
    assert (well_formed d) as Hd
      by (unfold d; repeat apply coerce_column_well_formed; exact Hwf).
    clearbody d. unfold depreciation_block.
    destruct (has_column "Depreciated Value" d) eqn:E1; [|exact Hd].
    pose proof (assign_well_formed "Depreciated Value"
                  (map (to_numeric parse_number)
                       (column "Depreciated Value" d)) d Hd E1) as H1.
    destruct (empty _); simpl; [exact H1|].
    destruct (has_column "Amount Depreciated" _) eqn:E2; simpl; [|exact H1].
    apply assign_well_formed; assumption.
Qed.

Lemma one_cell_per_column_witness :
  well_formed ex_serials /\
  well_formed (before_data_table no_date int_literal ex_serials).
Proof.
  assert (well_formed ex_serials) as Hwf.
  { intros r [<- | [<- | []]]; reflexivity. }
  split; [exact Hwf|].
  apply (one_cell_per_column_is_kept no_date int_literal ex_serials Hwf).
Defined.
